(** * mrstat: the merge-request aggregation engine

    A shallow embedding of [src/gitlab.ts], [src/util.ts] and
    [src/index.ts], and the properties of the report pipeline
    (fetch, author filter, approval fan-out, blocker derivation, grouping).

    Conventions of the embedding:
    - a JavaScript [number] that holds an identifier or a count is an
      integer of [Z]; [`${n}`] is its decimal rendering;
    - a JavaScript string is a [string];
    - an [Array] is a [list], [push] appends at the end;
    - [Record<string, number>] is a [gmap string Z];
    - a [Map] is an association list in insertion order;
    - a [Promise] is the [outcome] it settles with, and everything the
      program prints or sends is recorded, in order, as a list of
      [Event]s. *)

From stdpp Require Import base option list gmap strings fin_maps pretty.

Open Scope Z_scope.

(** ** JavaScript library functions used by the program *)

(** [Array.prototype.push], as a function of the array. *)
Definition push {A} (arr : list A) (x : A) : list A := arr ++ [x].

(** [String.prototype.includes]: [needle] occurs in [s] at some offset. *)
Fixpoint includes (s needle : string) : bool :=
  String.prefix needle s ||
  match s with
  | EmptyString => false
  | String _ s' => includes s' needle
  end.

(** [Array.prototype.includes] on an array of numbers. *)
Fixpoint array_includes (arr : list Z) (x : Z) : bool :=
  match arr with
  | [] => false
  | y :: arr' => (y =? x) || array_includes arr' x
  end.

(** [Array.prototype.join]. *)
Fixpoint join (sep : string) (xs : list string) : string :=
  match xs with
  | [] => ""
  | [x] => x
  | x :: xs' => x +:+ sep +:+ join sep xs'
  end.

(** [String.prototype.slice(n)]: the string without its first [n]
    characters. *)
Fixpoint slice (n : nat) (s : string) : string :=
  match n, s with
  | O, _ => s
  | S n', String _ s' => slice n' s'
  | S _, EmptyString => EmptyString
  end.

(** [`${n}`] for an integer [n]. *)
Definition number_toString (n : Z) : string := pretty n.

(** JavaScript truthiness of a string and of a number. *)
Definition truthy_string (s : string) : bool :=
  match s with EmptyString => false | _ => true end.

Definition truthy_number (n : Z) : bool := negb (n =? 0).

(** ** GitLab API types ([src/gitlab.ts], lines 19-69) *)

Inductive MRState := closed | merged | open.

Inductive MergeStatus :=
| unchecked
| checking
| can_be_merged
| cannot_be_merged
| cannot_be_merged_recheck.

#[global] Instance MergeStatus_eq_dec : EqDecision MergeStatus.
Proof. solve_decision. Defined.

(** The string a [MergeStatus] is at run time. *)
Definition MergeStatus_string (s : MergeStatus) : string :=
  match s with
  | unchecked => "unchecked"
  | checking => "checking"
  | can_be_merged => "can_be_merged"
  | cannot_be_merged => "cannot_be_merged"
  | cannot_be_merged_recheck => "cannot_be_merged_recheck"
  end.

Module Author.
Record t := mk {
  id : Z;
  name : string;
  username : string;
}.
End Author.

Module MRApprovalStatus.
Record t := mk {
  approvals_required : Z;
  approvals_left : Z;
  id : Z;
  iid : Z;
  project_id : Z;
  title : string;
}.
End MRApprovalStatus.

(** [approvals_needed] and [blockers] are the two mutable fields: the
    listing payload does not carry them, and [openMergeRequests] writes
    both before anything reads them. *)
Module MergeRequest.
Record t := mk {
  approvals_needed : Z;
  author : Author.t;
  blockers : list string;
  blocking_discussions_resolved : bool;
  draft : bool;
  has_conflicts : bool;
  iid : Z;
  labels : list string;
  merge_status : MergeStatus;
  source_branch : string;
  state : MRState;
  title : string;
  web_url : string;
  work_in_progress : bool;
}.

(** [mr.approvals_needed = n] *)
Definition set_approvals_needed (n : Z) (mr : t) : t :=
  mk n (author mr) (blockers mr) (blocking_discussions_resolved mr)
     (draft mr) (has_conflicts mr) (iid mr) (labels mr) (merge_status mr)
     (source_branch mr) (state mr) (title mr) (web_url mr)
     (work_in_progress mr).

(** [mr.blockers = bs] *)
Definition set_blockers (bs : list string) (mr : t) : t :=
  mk (approvals_needed mr) (author mr) bs (blocking_discussions_resolved mr)
     (draft mr) (has_conflicts mr) (iid mr) (labels mr) (merge_status mr)
     (source_branch mr) (state mr) (title mr) (web_url mr)
     (work_in_progress mr).
End MergeRequest.

(** ** The blocker deriver ([GitLab.#findBlockers], lines 150-167) *)

Definition findBlockers (mr : MergeRequest.t) : list string :=
  let threads_resolved := MergeRequest.blocking_discussions_resolved mr in
  let has_conflicts := MergeRequest.has_conflicts mr in
  let merge_status := MergeRequest.merge_status mr in
  let approvals_needed := MergeRequest.approvals_needed mr in
  let blockers := [] in
  let blockers :=
    if negb threads_resolved then push blockers "unresolved threads"
    else blockers in
  let blockers :=
    if has_conflicts then push blockers "has conflicts" else blockers in
  let blockers :=
    if includes (MergeStatus_string merge_status) "cannot_be_merged"
    then push blockers "cannot be merged"
    else blockers in
  let blockers :=
    if approvals_needed >? 0
    then push blockers
           ("requires approval (" +:+ number_toString approvals_needed +:+ ")")
    else blockers in
  blockers.

(** The four conditions of the deriver, as the specification words them. *)
Definition unresolved_threads (mr : MergeRequest.t) : Prop :=
  MergeRequest.blocking_discussions_resolved mr = false.

Definition conflicting (mr : MergeRequest.t) : Prop :=
  MergeRequest.has_conflicts mr = true.

Definition unmergeable (s : MergeStatus) : Prop :=
  s = cannot_be_merged ∨ s = cannot_be_merged_recheck.

Definition needs_approval (mr : MergeRequest.t) : Prop :=
  0 < MergeRequest.approvals_needed mr.

(** One optional entry of the blocker list. *)
Definition entry (P : Prop) `{!Decision P} (s : string) : list string :=
  if decide P then [s] else [].

#[global] Instance unmergeable_dec s : Decision (unmergeable s).
Proof. unfold unmergeable. apply _. Defined.

#[global] Instance unresolved_threads_dec mr : Decision (unresolved_threads mr).
Proof. unfold unresolved_threads. apply _. Defined.

#[global] Instance conflicting_dec mr : Decision (conflicting mr).
Proof. unfold conflicting. apply _. Defined.

#[global] Instance needs_approval_dec mr : Decision (needs_approval mr).
Proof. unfold needs_approval. apply _. Defined.

(** ** Errors, outcomes and the event trace *)

(** A JavaScript [Error]; the program only ever reads its message. *)
Record Error := mkError { message : string }.

(** How a call ends: with a value, or with a thrown error.  For a
    promise these are "resolved" and "rejected", which [await] turns
    into the former two. *)
Inductive outcome (T : Type) : Type :=
| Return (v : T)
| Throw (e : Error).
Arguments Return {T} v.
Arguments Throw {T} e.

(** What the process does to the outside world.  [Log] is [log(...)] of
    [src/util.ts] applied to a string: a [console.warn] line whose prefix
    is the elapsed time, which the embedding leaves out.  [LogGitLab] is
    [log(gitlab)]: the instance as the console shows it, that is its
    public fields. *)
Inductive Event :=
| Warn (text : string)
| Log (text : string)
| LogGitLab (authors : gmap string Z) (project_id : Z) (target_branch : string)
| Request (url : string) (authorization : string)
| ConsoleLog (text : string)
| ConsoleError (text : string).

(** A computation that prints and may throw. *)
Record M (A : Type) := mkM { trace : list Event; result : outcome A }.
Arguments mkM {A} trace result.
Arguments trace {A} m.
Arguments result {A} m.

#[global] Instance M_ret : MRet M := λ A v, mkM [] (Return v).

#[global] Instance M_bind : MBind M := λ A B k m,
  match result m with
  | Return v => let m' := k v in mkM (trace m ++ trace m') (result m')
  | Throw e => mkM (trace m) (Throw e)
  end.

Definition throw {A} (e : Error) : M A := mkM [] (Throw e).

Definition emit (ev : Event) : M unit := mkM [ev] (Return tt).

(** [JSON.parse(data)] read at type [T], as [#get<T>] asserts it: the
    parsed value, or the [SyntaxError] of a malformed text. *)
Class FromJSON (T : Type) := JSON_parse : string → outcome T.

(** ** Configuration and construction ([GitLab.constructor], lines 64-104) *)

(** The parsed configuration file.  A field is [None] when the key is
    absent. *)
Module GitLabConfig.
Record t := mk {
  api_token : option string;
  target_branch : option string;
  authors : option (gmap string Z);
  project_id : option Z;
}.
End GitLabConfig.

Module GitLab.
Record t := mk {
  api_token : string;
  authors : gmap string Z;
  project_id : Z;
  target_branch : string;
}.
End GitLab.

(** [!x] for a value that may be [undefined]: [None] stands for
    [undefined], which is falsy. *)
Definition truthy {A} (truthy_value : A → bool) (x : option A) : option A :=
  match x with
  | Some v => if truthy_value v then Some v else None
  | None => None
  end.

(** [Object.entries(o)] and [Object.values(o)]. *)
Definition Object_entries (o : gmap string Z) : list (string * Z) :=
  map_to_list o.

Definition Object_values (o : gmap string Z) : list Z :=
  (map_to_list o).*2.

Definition missing_api_token : Error :=
  mkError "missing `api_token`: see https://docs.gitlab.com/ee/user/profile/personal_access_tokens.html".

Definition missing_project_id : Error :=
  mkError "missing `project_id`: you can find Project ID in your project settings".

(** [new GitLab(config)]; [config] is [None] when it is [null] or
    [undefined], and [config?.f] is then [undefined]. *)
Definition constructor (config : option GitLabConfig.t) : M GitLab.t :=
  match truthy truthy_string (config ≫= GitLabConfig.api_token) with
  | None => throw missing_api_token
  | Some api_token =>
    match truthy truthy_number (config ≫= GitLabConfig.project_id) with
    | None => throw missing_project_id
    | Some project_id =>
      let authors := config ≫= GitLabConfig.authors in
      let target_branch := config ≫= GitLabConfig.target_branch in
      (if match authors with
          | None => true
          | Some o => (length (Object_entries o) <? 1)%nat
          end
       then emit (Warn "missing or empty property `authors`");;
            emit (Warn "all open project MRs will be returned")
       else mret tt);;
      match truthy truthy_string target_branch with
      | Some _ => mret tt
      | None =>
        emit (Warn "Configuration missing branch name; defaulting to main")
      end;;
      mret {| GitLab.api_token := api_token;
              GitLab.authors := default ∅ authors;
              GitLab.project_id := project_id;
              GitLab.target_branch := default "main" target_branch |}
    end
  end.

(** ** Requests ([GitLab.#get], lines 176-215) *)

Definition GITLAB_API_BASE : string := "https://gitlab.com/api/v4".

Definition hex_digit (n : N) : string :=
  match String.get (N.to_nat n) "0123456789ABCDEF" with
  | Some c => String c ""
  | None => ""
  end.

(** The [application/x-www-form-urlencoded] serialiser of
    [URLSearchParams]: letters, digits and [*-._] stand for themselves,
    a space becomes [+], any other byte is percent-encoded. *)
Definition form_urlencode_byte (c : Ascii.ascii) : string :=
  let n := Ascii.N_of_ascii c in
  if ((48 <=? n) && (n <=? 57) || (65 <=? n) && (n <=? 90) ||
      (97 <=? n) && (n <=? 122) ||
      (n =? 42) || (n =? 45) || (n =? 46) || (n =? 95))%N
  then String c ""
  else if (n =? 32)%N then "+"
  else "%" +:+ hex_digit (n / 16) +:+ hex_digit (n mod 16).

Fixpoint form_urlencode (s : string) : string :=
  match s with
  | EmptyString => ""
  | String c s' => form_urlencode_byte c +:+ form_urlencode s'
  end.

(** [new URLSearchParams(params).toString()]; [params] is the list of
    the object's entries, empty when it is [undefined]. *)
Definition URLSearchParams_toString (params : list (string * string)) : string :=
  join "&" (map (λ kv, form_urlencode kv.1 +:+ "=" +:+ form_urlencode kv.2)
              params).

(** [url.toString()] after [url.search = search], for a [url] built from
    a text that is already in normal form. *)
Definition URL_toString (href search : string) : string :=
  if truthy_string search then href +:+ "?" +:+ search else href.

(** What the network does with a request: the [request] emits ["error"],
    or the callback gets a response, whose body is read to its end. *)
Inductive Response :=
| NetworkError (e : Error)
| Reply (statusCode : option Z) (data : string).

(** The answer to the [n]-th request of the run, sent to [url]. *)
Definition Network := nat → string → Response.

Section Get.
Context (this : GitLab.t).

Definition baseURL : string :=
  GITLAB_API_BASE +:+ "/projects/" +:+ number_toString (GitLab.project_id this).

Definition request_url (uri : string) (params : list (string * string)) : string :=
  URL_toString (baseURL +:+ uri) (URLSearchParams_toString params).

Definition request_logUrl (uri : string) (params : list (string * string)) : string :=
  slice (String.length baseURL) (request_url uri params).

(** The part of [#get] that runs when it is called (lines 180-192, 212-213):
    the log line, then the request, with the token in its header. *)
Definition get_send (uri : string) (params : list (string * string)) : M string :=
  let logUrl := request_logUrl uri params in
  emit (Log (logUrl +:+ " - requesting..."));;
  emit (Request (request_url uri params)
                ("Bearer " +:+ GitLab.api_token this));;
  mret logUrl.

(** The part of [#get] that runs when the request completes (lines
    192-212), which settles the promise.  After a [SyntaxError] the
    callback still logs; its [resolve] comes after the [reject] and does
    nothing. *)
Definition get_receive {T} `{FromJSON T} (logUrl : string) (res : Response) : M T :=
  match res with
  | NetworkError e => throw e
  | Reply statusCode data =>
    match truthy truthy_number statusCode with
    | Some statusCode =>
      if (statusCode <? 200) || (statusCode >=? 300)
      then throw (mkError ("statusCode=" +:+ number_toString statusCode))
      else mret tt
    | None => mret tt
    end;;
    let parsed := JSON_parse data in
    emit (Log (logUrl +:+ " - received " +:+
               number_toString (Z.of_nat (String.length data)) +:+ " bytes."));;
    mkM [] parsed
  end.

(** [await this.#get<T>(uri, params)], answered by [res]. *)
Definition get {T} `{FromJSON T} (res : string → Response)
    (uri : string) (params : list (string * string)) : M T :=
  logUrl ← get_send uri params;
  get_receive logUrl (res (request_url uri params)).

End Get.

(** ** The orchestrator ([GitLab.openMergeRequests], lines 112-141) *)

(** Lines 119-125: the author filter. *)
Definition author_filter (author_ids : list Z) (all_mrs : list MergeRequest.t)
    : list MergeRequest.t :=
  if (0 <? length author_ids)%nat
  then List.filter
         (λ mr, array_includes author_ids (Author.id (MergeRequest.author mr)))
         all_mrs
  else all_mrs.

(** Lines 132-135: what the [then] callback does to [mr]. *)
Definition enrich (approvals : MRApprovalStatus.t) (mr : MergeRequest.t)
    : MergeRequest.t :=
  let mr :=
    MergeRequest.set_approvals_needed
      (MRApprovalStatus.approvals_left approvals) mr in
  MergeRequest.set_blockers (findBlockers mr) mr.

Definition approvals_uri (mr : MergeRequest.t) : string :=
  "/merge_requests/" +:+ number_toString (MergeRequest.iid mr) +:+ "/approvals".

(** The state of the fan-out of lines 129-138 while responses come in:
    the array [mrs], whose objects the callbacks write to; the first
    rejection, with which [Promise.all] has rejected; what was printed
    until then, and what the responses that complete later print. *)
Record Fanout := mkFanout {
  items : list MergeRequest.t;
  rejection : option Error;
  before : list Event;
  late : list Event;
}.

(** What [await openMergeRequests()] leaves: [settled] is [None] while
    some response is outstanding and none has failed. *)
Record Run := mkRun {
  settled : option (outcome (list MergeRequest.t));
  printed : list Event;
  printed_late : list Event;
}.

Section Orchestrator.
Context `{FromJSON (list MergeRequest.t), FromJSON MRApprovalStatus.t}.
Context (this : GitLab.t) (net : Network).

(** [mrs.map(async (mr) => this.#get(...))]: every request is sent, in
    the order of [mrs], before any response is handled. *)
Definition send_all (mrs : list MergeRequest.t) : list Event :=
  flat_map (λ mr, trace (get_send this (approvals_uri mr) [])) mrs.

(** The settling of the approval call of [sent[i]], the [S i]-th request
    of the run. *)
Definition approval_call (sent : list MergeRequest.t) (i : nat)
    : option (M MRApprovalStatus.t) :=
  mr ← sent !! i;
  let uri := approvals_uri mr in
  Some (get_receive (request_logUrl this uri [])
                    (net (S i) (request_url this uri []))).

(** The response to the request of [mrs[i]] completes; [sent] is [mrs]
    as it was when the requests were sent. *)
Definition complete (sent : list MergeRequest.t) (st : Fanout) (i : nat) : Fanout :=
  match approval_call sent i, items st !! i with
  | Some r, Some mr =>
    let items' :=
      match result r with
      | Return approvals => <[i := enrich approvals mr]> (items st)
      | Throw _ => items st
      end in
    match rejection st with
    | Some e => mkFanout items' (Some e) (before st) (late st ++ trace r)
    | None =>
      mkFanout items'
        (match result r with Return _ => None | Throw e => Some e end)
        (before st ++ trace r) []
    end
  | _, _ => st
  end.

(** Every index of [0 .. n-1] occurs in [sched]. *)
Definition all_completed (n : nat) (sched : list nat) : bool :=
  forallb (λ i, bool_decide (i ∈ sched)) (seq 0 n).

(** [await Promise.all(...)] when the responses complete in the order
    [sched]. *)
Definition Promise_all (mrs : list MergeRequest.t) (sched : list nat) : Run :=
  let st := foldl (complete mrs) (mkFanout mrs None (send_all mrs) []) sched in
  match rejection st with
  | Some e => mkRun (Some (Throw e)) (before st) (late st)
  | None =>
    if all_completed (length mrs) sched
    then mkRun (Some (Return (items st))) (before st) (late st)
    else mkRun None (before st) (late st)
  end.

Definition openMergeRequests (sched : list nat) : Run :=
  let listing : M (list MergeRequest.t) :=
    get this (net 0%nat) "/merge_requests"
      [("scope", "all"); ("state", "opened");
       ("target_branch", GitLab.target_branch this)] in
  match result listing with
  | Throw e => mkRun (Some (Throw e)) (trace listing) []
  | Return all_mrs =>
    let author_ids := Object_values (GitLab.authors this) in
    let mrs := author_filter author_ids all_mrs in
    let run := Promise_all mrs sched in
    mkRun (settled run) (trace listing ++ printed run) (printed_late run)
  end.

End Orchestrator.

(** ** Grouping and formatting ([src/util.ts]) *)

Definition newline : string := String (Ascii.ascii_of_nat 10) "".

(** [formatMRs], lines 22-38. *)
Definition formatMRs (header : string) (mrs : list MergeRequest.t) : string :=
  let output := ["* *" +:+ header +:+ "*" +:+ newline] in
  let output :=
    foldl (λ output mr,
      let output :=
        push output
          ("    * [" +:+ MergeRequest.title mr +:+ "](" +:+
           MergeRequest.web_url mr +:+ ") (" +:+
           Author.username (MergeRequest.author mr) +:+ ")" +:+ newline) in
      let output :=
        if (0 <? length (MergeRequest.labels mr))%nat
        then push output
               ("        * Labels: " +:+ join ", " (MergeRequest.labels mr) +:+
                newline)
        else output in
      let output :=
        if (0 <? length (MergeRequest.blockers mr))%nat
        then push output
               ("        * " +:+ join ", " (MergeRequest.blockers mr) +:+
                newline)
        else output in
      output) output mrs in
  join "" output.

(** A JavaScript [Map]: its entries, in insertion order. *)
Section Map.
Context {K V : Type} `{EqDecision K}.

Definition Map : Type := list (K * V).

Fixpoint Map_get (m : Map) (key : K) : option V :=
  match m with
  | [] => None
  | (k, v) :: m' => if decide (k = key) then Some v else Map_get m' key
  end.

Definition Map_has (m : Map) (key : K) : bool :=
  match Map_get m key with Some _ => true | None => false end.

(** [m.set(key, v)]: a present key keeps its place. *)
Fixpoint Map_set (m : Map) (key : K) (v : V) : Map :=
  match m with
  | [] => [(key, v)]
  | (k, v') :: m' =>
    if decide (k = key) then (k, v) :: m' else (k, v') :: Map_set m' key v
  end.

End Map.
Arguments Map K V : clear implicits.

(** [groupBy], lines 40-54.  [m.get(key)?.push(x)] appends to the array
    that the map holds under [key]. *)
Definition groupBy {T K} `{EqDecision K} (f : T → K) (xs : list T)
    : Map K (list T) :=
  foldl (λ m x,
    let key := f x in
    if Map_has m key
    then match Map_get m key with
         | Some arr => Map_set m key (push arr x)
         | None => m
         end
    else Map_set m key [x]) [] xs.

(** ** The program ([src/index.ts]) *)

(** The key function of line 22. *)
Definition blocked_or_ready (mr : MergeRequest.t) : string :=
  if (0 <? length (MergeRequest.blockers mr))%nat then "blocked" else "ready".

(** [.filter(Boolean)] on an array of strings and [false]s, [None]
    standing for [false]. *)
Definition filter_Boolean (xs : list (option string)) : list string :=
  omap (truthy truthy_string) xs.

(** Lines 21-46: the report, from the enriched items. *)
Definition report (gitlab : GitLab.t) (items : list MergeRequest.t)
    (isTTY : bool) : list Event :=
  let mrs := groupBy blocked_or_ready items in
  let output :=
    join ""
      (filter_Boolean
         [Some (newline +:+ "*Open MRs against `" +:+
                GitLab.target_branch gitlab +:+ "`:*" +:+ newline);
          if Map_has mrs "ready"
          then Some (formatMRs "Ready to Merge"
                       (default [] (Map_get mrs "ready")))
          else None;
          if Map_has mrs "blocked"
          then Some (formatMRs "Blocked" (default [] (Map_get mrs "blocked")))
          else None]) in
  [Warn (newline +:+ "Output can safely be piped to clipboard." +:+ newline);
   Warn ("E.g., for macOS: mrstat | pbcopy" +:+ newline)] ++
  (if isTTY then [Warn "===== BEGIN MARKDOWN ====="] else []) ++
  [ConsoleLog output] ++
  (if isTTY then [Warn ("===== END MARKDOWN =====" +:+ newline)] else []).

Section Main.
Context `{FromJSON (list MergeRequest.t), FromJSON MRApprovalStatus.t}.

(** Lines 12-19: [rc] is what reading and parsing the configuration
    file gives, [HOME] the environment variable. *)
Definition startup (HOME : option string)
    (rc : outcome (option GitLabConfig.t)) : M GitLab.t :=
  let path := default "" HOME +:+ "/.mrstat.json" in
  emit (Log ("Checking for configuration file " +:+ path));;
  config ← mkM [] rc;
  gitlab ← constructor config;
  emit (LogGitLab (GitLab.authors gitlab) (GitLab.project_id gitlab)
          (GitLab.target_branch gitlab));;
  mret gitlab.

(** [main().catch((err) => console.error(err.message))]: everything the
    process prints and sends, in order. *)
Definition main (HOME : option string) (rc : outcome (option GitLabConfig.t))
    (net : Network) (sched : list nat) (isTTY : bool) : list Event :=
  let start := startup HOME rc in
  match result start with
  | Throw err => trace start ++ [ConsoleError (message err)]
  | Return gitlab =>
    let run := openMergeRequests gitlab net sched in
    trace start ++ printed run ++
    match settled run with
    | None => []
    | Some (Throw err) => [ConsoleError (message err)] ++ printed_late run
    | Some (Return mrs) => report gitlab mrs isTTY
    end
  end.

End Main.

(** ** Notions of the specification, for the orchestrator *)

Section Calls.
Context `{FromJSON (list MergeRequest.t), FromJSON MRApprovalStatus.t}.
Context (this : GitLab.t) (net : Network).

(** The listing call of [openMergeRequests]. *)
Definition listing_call : M (list MergeRequest.t) :=
  get this (net 0%nat) "/merge_requests"
    [("scope", "all"); ("state", "opened");
     ("target_branch", GitLab.target_branch this)].

(** The items that survive the author filter, when the listing call
    returns. *)
Definition filtered : option (list MergeRequest.t) :=
  match result listing_call with
  | Return all_mrs =>
    Some (author_filter (Object_values (GitLab.authors this)) all_mrs)
  | Throw _ => None
  end.

(** The approval call of the [i]-th item of [mrs] fails with [e]. *)
Definition approval_fails (mrs : list MergeRequest.t) (i : nat) (e : Error) : Prop :=
  ∃ r, approval_call this net mrs i = Some r ∧ result r = Throw e.

(** The approval call of the [i]-th item of [mrs] returns [a]. *)
Definition approval_returns (mrs : list MergeRequest.t) (i : nat)
    (a : MRApprovalStatus.t) : Prop :=
  ∃ r, approval_call this net mrs i = Some r ∧ result r = Return a.

(** Some call of the run fails with [e]: the listing call, or an
    approval call whose response arrives. *)
Definition call_fails (sched : list nat) (e : Error) : Prop :=
  result listing_call = Throw e ∨
  ∃ mrs i, filtered = Some mrs ∧ i ∈ sched ∧ approval_fails mrs i e.

(** The error of the first approval call to fail, in the order in which
    the responses arrive. *)
Fixpoint first_rejection (mrs : list MergeRequest.t) (sched : list nat)
    : option Error :=
  match sched with
  | [] => None
  | i :: sched' =>
    match approval_call this net mrs i with
    | Some r =>
      match result r with
      | Throw e => Some e
      | Return _ => first_rejection mrs sched'
      end
    | None => first_rejection mrs sched'
    end
  end.

(** The items of [mrs], each enriched from the response of its own
    approval call. *)
Definition enrich_all (mrs : list MergeRequest.t) : list MergeRequest.t :=
  imap (λ i mr,
    match approval_call this net mrs i with
    | Some r =>
      match result r with Return a => enrich a mr | Throw _ => mr end
    | None => mr
    end) mrs.

(** The content of the [j]-th object once the responses of [done] have
    been handled. *)
Definition settle_item (sent : list MergeRequest.t) (done : list nat)
    (j : nat) (mr0 : MergeRequest.t) : MergeRequest.t :=
  match approval_call this net sent j with
  | Some r =>
    match result r with
    | Return a => if decide (j ∈ done) then enrich a mr0 else mr0
    | Throw _ => mr0
    end
  | None => mr0
  end.

End Calls.

(** The text written to the primary output, and the requests sent. *)
Definition stdout (t : list Event) : list string :=
  omap (λ ev, match ev with ConsoleLog s => Some s | _ => None end) t.

Definition requests (t : list Event) : list (string * string) :=
  omap (λ ev, match ev with Request u a => Some (u, a) | _ => None end) t.

Definition errors (t : list Event) : list string :=
  omap (λ ev, match ev with ConsoleError s => Some s | _ => None end) t.

(** The diagnostic lines: everything printed on the error stream. *)
Definition diagnostics (t : list Event) : list Event :=
  List.filter
    (λ ev, match ev with Request _ _ | ConsoleLog _ => false | _ => true end) t.

(** ** Notions of the specification *)

(** [id] is one of the values of the configured authors table. *)
Definition allowed (authors : gmap string Z) (id : Z) : Prop :=
  ∃ name : string, authors !! name = Some id.

(** The author of a merge request. *)
Definition author_id (mr : MergeRequest.t) : Z :=
  Author.id (MergeRequest.author mr).

(** The two buckets that [main] reads from the grouping. *)
Definition bucket (key : string) (items : list MergeRequest.t)
    : list MergeRequest.t :=
  default [] (Map_get (groupBy blocked_or_ready items) key).

(** An event that is neither the report nor an error message. *)
Definition silent (ev : Event) : Prop :=
  match ev with ConsoleLog _ | ConsoleError _ => False | _ => True end.

(** An event that is not a request. *)
Definition offline (ev : Event) : Prop :=
  match ev with Request _ _ => False | _ => True end.

(** The response status is outside 200-299. *)
Definition status_outside_2xx (res : Response) : Prop :=
  ∃ s data, res = Reply (Some s) data ∧ (s < 200 ∨ 299 < s).

(** The call throws; for a promise, it is rejected. *)
Definition rejects {T} (m : M T) : Prop := ∃ e, result m = Throw e.

(** The same instance, holding another token. *)
Definition with_api_token (api_token : string) (this : GitLab.t) : GitLab.t :=
  {| GitLab.api_token := api_token;
     GitLab.authors := GitLab.authors this;
     GitLab.project_id := GitLab.project_id this;
     GitLab.target_branch := GitLab.target_branch this |}.

(** The same configuration, with another [api_token] or [project_id]
    entry, or without one. *)
Definition config_with_api_token (api_token : option string)
    (config : GitLabConfig.t) : GitLabConfig.t :=
  {| GitLabConfig.api_token := api_token;
     GitLabConfig.target_branch := GitLabConfig.target_branch config;
     GitLabConfig.authors := GitLabConfig.authors config;
     GitLabConfig.project_id := GitLabConfig.project_id config |}.

Definition config_with_project_id (project_id : option Z)
    (config : GitLabConfig.t) : GitLabConfig.t :=
  {| GitLabConfig.api_token := GitLabConfig.api_token config;
     GitLabConfig.target_branch := GitLabConfig.target_branch config;
     GitLabConfig.authors := GitLabConfig.authors config;
     GitLabConfig.project_id := project_id |}.

(** The path and query of a request, relative to the base URL. *)
Definition relative_url (uri : string) (params : list (string * string)) : string :=
  let query := URLSearchParams_toString params in
  if truthy_string query then uri +:+ "?" +:+ query else uri.

(** ** The logger ([log], [src/util.ts], lines 9-13) *)

(** [String.prototype.padStart(n)]: spaces in front, up to length
    [n]. *)
Fixpoint spaces (n : nat) : string :=
  match n with O => "" | S n' => " " +:+ spaces n' end.

Definition padStart (n : nat) (s : string) : string :=
  spaces (n - String.length s) +:+ s.

(** The first argument that [log] gives to [console.warn], when
    [log.start] is [start] and [Date.now()] gives [now]. *)
Definition log_prefix (start now : Z) : string :=
  let delta := now - start in
  "[" +:+ padStart 5 (number_toString delta) +:+ "ms]".

(** The line that [log(text)] prints: [console.warn] separates its
    arguments by a space. *)
Definition log_line (start now : Z) (text : string) : string :=
  log_prefix start now +:+ " " +:+ text.

(** ** Notions of the specification, for the report *)

(** The lines of one merge request in a section of the report. *)
Definition format_item (mr : MergeRequest.t) : string :=
  ("    * [" +:+ MergeRequest.title mr +:+ "](" +:+
   MergeRequest.web_url mr +:+ ") (" +:+
   Author.username (MergeRequest.author mr) +:+ ")" +:+ newline) +:+
  (match MergeRequest.labels mr with
   | [] => ""
   | labels => "        * Labels: " +:+ join ", " labels +:+ newline
   end) +:+
  (match MergeRequest.blockers mr with
   | [] => ""
   | blockers => "        * " +:+ join ", " blockers +:+ newline
   end).

(** The texts of a list, one after the other. *)
Fixpoint concat_strings (xs : list string) : string :=
  match xs with
  | [] => ""
  | x :: xs' => x +:+ concat_strings xs'
  end.

(** A section of the report: nothing at all for an empty bucket. *)
Definition report_section (title : string) (mrs : list MergeRequest.t) : string :=
  match mrs with
  | [] => ""
  | _ => formatMRs title mrs
  end.

(** The text of the report, from the enriched items. *)
Definition report_text (gitlab : GitLab.t) (items : list MergeRequest.t) : string :=
  (newline +:+ "*Open MRs against `" +:+ GitLab.target_branch gitlab +:+
   "`:*" +:+ newline) +:+
  report_section "Ready to Merge"
    (filter (λ mr, MergeRequest.blockers mr = []) items) +:+
  report_section "Blocked"
    (filter (λ mr, MergeRequest.blockers mr ≠ []) items).

(** ** Notions of the specification, for requests *)

(** A byte that [form_urlencode] leaves as it is. *)
Definition unreserved (c : Ascii.ascii) : bool :=
  let n := Ascii.N_of_ascii c in
  ((48 <=? n) && (n <=? 57) || (65 <=? n) && (n <=? 90) ||
   (97 <=? n) && (n <=? 122) ||
   (n =? 42) || (n =? 45) || (n =? 46) || (n =? 95))%N.

(** A byte that can occur in the output of [form_urlencode]: an
    unreserved one, [+] or [%]. *)
Definition query_safe (c : Ascii.ascii) : bool :=
  let n := Ascii.N_of_ascii c in
  unreserved c || (n =? 43)%N || (n =? 37)%N.

Fixpoint string_forall (P : Ascii.ascii → bool) (s : string) : bool :=
  match s with
  | EmptyString => true
  | String c s' => P c && string_forall P s'
  end.

(** The value of a hexadecimal digit in upper case. *)
Definition unhex (c : Ascii.ascii) : option N :=
  let n := Ascii.N_of_ascii c in
  if ((48 <=? n) && (n <=? 57))%N then Some (n - 48)%N
  else if ((65 <=? n) && (n <=? 70))%N then Some (n - 55)%N
  else None.

(** The reading of a text that [form_urlencode] wrote. *)
Fixpoint form_urldecode (s : string) : option string :=
  match s with
  | EmptyString => Some ""
  | String c r =>
    if (Ascii.N_of_ascii c =? 43)%N
    then String (Ascii.ascii_of_N 32) <$> form_urldecode r
    else if (Ascii.N_of_ascii c =? 37)%N then
      match r with
      | String h1 (String h2 r') =>
        match unhex h1, unhex h2 with
        | Some a, Some b =>
          String (Ascii.ascii_of_N (16 * a + b)) <$> form_urldecode r'
        | _, _ => None
        end
      | _ => None
      end
    else String c <$> form_urldecode r
  end.

(** The request of the listing call and that of the approval call of
    an item, as [requests] shows them. *)
Definition listing_request (this : GitLab.t) : string * string :=
  (request_url this "/merge_requests"
     [("scope", "all"); ("state", "opened");
      ("target_branch", GitLab.target_branch this)],
   "Bearer " +:+ GitLab.api_token this).

Definition approval_request (this : GitLab.t) (mr : MergeRequest.t)
    : string * string :=
  (request_url this (approvals_uri mr) [],
   "Bearer " +:+ GitLab.api_token this).




(** ** A sample run

    Two open merge requests, the first with conflicts and one approval
    left, the second clean; a toy reader for the three response bodies
    the sample server sends. *)
Module Sample.

Definition alice : Author.t := Author.mk 1010 "Alice" "alice".
Definition bob : Author.t := Author.mk 1011 "Bob" "bob".

Definition mr27 : MergeRequest.t :=
  {| MergeRequest.approvals_needed := 0;
     MergeRequest.author := alice;
     MergeRequest.blockers := [];
     MergeRequest.blocking_discussions_resolved := true;
     MergeRequest.draft := false;
     MergeRequest.has_conflicts := true;
     MergeRequest.iid := 27;
     MergeRequest.labels := ["backend"; "urgent"];
     MergeRequest.merge_status := can_be_merged;
     MergeRequest.source_branch := "fix-mobile";
     MergeRequest.state := open;
     MergeRequest.title := "feat: make feature work on mobile";
     MergeRequest.web_url := "https://gitlab.com/yourco/your-project/-/merge_requests/27";
     MergeRequest.work_in_progress := false |}.

Definition mr28 : MergeRequest.t :=
  {| MergeRequest.approvals_needed := 0;
     MergeRequest.author := bob;
     MergeRequest.blockers := [];
     MergeRequest.blocking_discussions_resolved := true;
     MergeRequest.draft := false;
     MergeRequest.has_conflicts := false;
     MergeRequest.iid := 28;
     MergeRequest.labels := [];
     MergeRequest.merge_status := can_be_merged;
     MergeRequest.source_branch := "no-animations";
     MergeRequest.state := open;
     MergeRequest.title := "feat: disable animations";
     MergeRequest.web_url := "https://gitlab.com/yourco/your-project/-/merge_requests/28";
     MergeRequest.work_in_progress := false |}.

(** A record on which all four blocking conditions hold. *)
Definition mr29 : MergeRequest.t :=
  {| MergeRequest.approvals_needed := 2;
     MergeRequest.author := bob;
     MergeRequest.blockers := [];
     MergeRequest.blocking_discussions_resolved := false;
     MergeRequest.draft := true;
     MergeRequest.has_conflicts := true;
     MergeRequest.iid := 29;
     MergeRequest.labels := [];
     MergeRequest.merge_status := cannot_be_merged;
     MergeRequest.source_branch := "wip";
     MergeRequest.state := open;
     MergeRequest.title := "wip: rework";
     MergeRequest.web_url := "https://gitlab.com/yourco/your-project/-/merge_requests/29";
     MergeRequest.work_in_progress := true |}.

Definition approvals (iid left : Z) : MRApprovalStatus.t :=
  {| MRApprovalStatus.approvals_required := 1;
     MRApprovalStatus.approvals_left := left;
     MRApprovalStatus.id := 9000 + iid;
     MRApprovalStatus.iid := iid;
     MRApprovalStatus.project_id := 12345678;
     MRApprovalStatus.title := "" |}.

Definition syntax_error : Error := mkError "Unexpected end of JSON input".

Definition parse_listing : FromJSON (list MergeRequest.t) := λ data,
  if String.eqb data "[27,28]" then Return [mr27; mr28]
  else if String.eqb data "[]" then Return []
  else Throw syntax_error.

Definition parse_approvals : FromJSON MRApprovalStatus.t := λ data,
  if String.eqb data "{27:1}" then Return (approvals 27 1)
  else if String.eqb data "{28:0}" then Return (approvals 28 0)
  else Throw syntax_error.

Definition config : GitLabConfig.t :=
  {| GitLabConfig.api_token := Some "SECRET";
     GitLabConfig.target_branch := Some "master";
     GitLabConfig.authors :=
       Some (<["alice" := 1010]> (<["bob" := 1011]> ∅));
     GitLabConfig.project_id := Some 12345678 |}.

Definition gitlab : GitLab.t :=
  {| GitLab.api_token := "SECRET";
     GitLab.authors := <["alice" := 1010]> (<["bob" := 1011]> ∅);
     GitLab.project_id := 12345678;
     GitLab.target_branch := "master" |}.

(** The server: the listing, then one approval status per item. *)
Definition net : Network := λ n _,
  match n with
  | 0%nat => Reply (Some 200) "[27,28]"
  | 1%nat => Reply (Some 200) "{27:1}"
  | _ => Reply (Some 200) "{28:0}"
  end.

(** The same server, failing the second approval call with status 500. *)
Definition net_500 : Network := λ n url,
  match n with
  | 2%nat => Reply (Some 500) "Internal Server Error"
  | _ => net n url
  end.

(** A third author, who is not in the table of [config], and her merge
    request. *)
Definition carol : Author.t := Author.mk 1100 "Cathy" "cathy".

Definition mr30 : MergeRequest.t :=
  {| MergeRequest.approvals_needed := 0;
     MergeRequest.author := carol;
     MergeRequest.blockers := ["has conflicts"];
     MergeRequest.blocking_discussions_resolved := true;
     MergeRequest.draft := false;
     MergeRequest.has_conflicts := true;
     MergeRequest.iid := 30;
     MergeRequest.labels := [];
     MergeRequest.merge_status := checking;
     MergeRequest.source_branch := "docs";
     MergeRequest.state := open;
     MergeRequest.title := "docs: usage";
     MergeRequest.web_url := "https://gitlab.com/yourco/your-project/-/merge_requests/30";
     MergeRequest.work_in_progress := false |}.

(** Configurations that lack a field, or hold a falsy one. *)
Definition config_without_api_token : GitLabConfig.t :=
  config_with_api_token None config.

Definition config_with_empty_api_token : GitLabConfig.t :=
  config_with_api_token (Some "") config.

Definition config_with_project_id_0 : GitLabConfig.t :=
  config_with_project_id (Some 0) config.

Definition config_without_authors : GitLabConfig.t :=
  {| GitLabConfig.api_token := Some "SECRET";
     GitLabConfig.target_branch := Some "master";
     GitLabConfig.authors := None;
     GitLabConfig.project_id := Some 12345678 |}.

(** Servers that answer every request in the same way. *)
Definition always (statusCode : option Z) (data : string) : string → Response :=
  λ _, Reply statusCode data.

End Sample.


(** ** Further cases of the sample *)
Module Cases.

(** A server that cannot be reached. *)
Definition refused : string → Response :=
  λ _, NetworkError (mkError "connect ECONNREFUSED").

(** The instance of the sample, for a branch whose name has a slash. *)
Definition gitlab_release : GitLab.t :=
  {| GitLab.api_token := "SECRET";
     GitLab.authors := GitLab.authors Sample.gitlab;
     GitLab.project_id := 12345678;
     GitLab.target_branch := "release/1.0" |}.

(** The configuration of the sample, with an empty branch name. *)
Definition config_with_empty_branch : GitLabConfig.t :=
  {| GitLabConfig.api_token := Some "SECRET";
     GitLabConfig.target_branch := Some "";
     GitLabConfig.authors := GitLabConfig.authors Sample.config;
     GitLabConfig.project_id := Some 12345678 |}.

Definition gitlab_with_empty_branch : GitLab.t :=
  {| GitLab.api_token := "SECRET";
     GitLab.authors := GitLab.authors Sample.gitlab;
     GitLab.project_id := 12345678;
     GitLab.target_branch := "" |}.

End Cases.

(** * Properties *)

(** ** The blocker deriver *)

Lemma includes_cannot_be_merged (s : MergeStatus) :
  includes (MergeStatus_string s) "cannot_be_merged" = true ↔ unmergeable s.
Proof.
  unfold unmergeable. destruct s; vm_compute; split; intros H;
    try reflexivity; try discriminate; auto;
    destruct H as [H | H]; discriminate.
Qed.

(** C1. [findBlockers] is a total function of the record: its result is
    the concatenation, in this order, of at most one entry per condition:
    "unresolved threads" when [blocking_discussions_resolved] is false,
    "has conflicts" when [has_conflicts] is true, "cannot be merged" when
    [merge_status] is [cannot_be_merged] or [cannot_be_merged_recheck]
    (which is, over the five statuses, when the status string contains
    "cannot_be_merged"), and "requires approval (N)" when
    [approvals_needed > 0], with N the decimal count.  With the four
    conditions true and a count of 2 the result is the four strings in
    that order; with the four false it is empty. *)
Theorem findBlockers_four_conditions :
  (∀ mr : MergeRequest.t,
     findBlockers mr =
       entry (unresolved_threads mr) "unresolved threads" ++
       entry (conflicting mr) "has conflicts" ++
       entry (unmergeable (MergeRequest.merge_status mr)) "cannot be merged" ++
       entry (needs_approval mr)
         ("requires approval (" +:+
            number_toString (MergeRequest.approvals_needed mr) +:+ ")")) ∧
  (∀ s : MergeStatus,
     includes (MergeStatus_string s) "cannot_be_merged" = true ↔
     unmergeable s) ∧
  (∀ mr : MergeRequest.t,
     unresolved_threads mr → conflicting mr →
     unmergeable (MergeRequest.merge_status mr) →
     MergeRequest.approvals_needed mr = 2 →
     findBlockers mr =
       ["unresolved threads"; "has conflicts"; "cannot be merged";
        "requires approval (2)"]) ∧
  (∀ mr : MergeRequest.t,
     ¬ unresolved_threads mr → ¬ conflicting mr →
     ¬ unmergeable (MergeRequest.merge_status mr) →
     ¬ needs_approval mr →
     findBlockers mr = []).
Proof.
  assert (Hgen : ∀ mr : MergeRequest.t,
     findBlockers mr =
       entry (unresolved_threads mr) "unresolved threads" ++
       entry (conflicting mr) "has conflicts" ++
       entry (unmergeable (MergeRequest.merge_status mr)) "cannot be merged" ++
       entry (needs_approval mr)
         ("requires approval (" +:+
            number_toString (MergeRequest.approvals_needed mr) +:+ ")")).
  { intros [n a bl tr d hc i l ms sb st t w wip].
    unfold findBlockers, entry, push, unresolved_threads, conflicting,
      needs_approval; cbn -[includes number_toString Z.gtb].
    destruct (Z.gtb_spec n 0);
      destruct (includes _ _) eqn:Hinc;
      (apply includes_cannot_be_merged in Hinc ||
       (assert (¬ unmergeable ms)
          by (rewrite <- includes_cannot_be_merged; congruence)));
      destruct tr, hc; repeat case_decide;
      try done; try lia. }
  split; [exact Hgen |]. split; [exact includes_cannot_be_merged |]. split.
  - intros mr H1 H2 H3 H4. rewrite Hgen. unfold entry.
    rewrite !decide_True by (done || (unfold needs_approval; lia)).
    rewrite H4. reflexivity.
  - intros mr H1 H2 H3 H4. rewrite Hgen. unfold entry.
    rewrite !decide_False by done. reflexivity.
Qed.

(** ** The author filter *)

Lemma array_includes_elem_of (arr : list Z) (x : Z) :
  array_includes arr x = true ↔ x ∈ arr.
Proof.
  induction arr as [| y arr IH]; simpl.
  - split; [discriminate | intros H; inversion H].
  - rewrite orb_true_iff, IH, elem_of_cons, Z.eqb_eq. intuition congruence.
Qed.

Lemma Array_filter_filter {A} (f : A → bool) (P : A → Prop)
    `{!∀ x, Decision (P x)} (l : list A) :
  (∀ x, f x = true ↔ P x) → List.filter f l = filter P l.
Proof.
  intros Hf. induction l as [| x l IH]; [done |].
  simpl. rewrite filter_cons, IH.
  destruct (f x) eqn:Hx; destruct (decide (P x)) as [HP | HP]; try done.
  - apply Hf in Hx. done.
  - apply Hf in HP. congruence.
Qed.

Lemma elem_of_Object_values (authors : gmap string Z) (id : Z) :
  id ∈ Object_values authors ↔ allowed authors id.
Proof.
  unfold Object_values, allowed. rewrite list_elem_of_fmap. split.
  - intros [[name v] [-> Hin]]. exists name.
    by apply elem_of_map_to_list in Hin.
  - intros [name Hname]. exists (name, id). split; [done |].
    by apply elem_of_map_to_list.
Qed.

Lemma Object_values_nil (authors : gmap string Z) :
  Object_values authors = [] ↔ ∀ id, ¬ allowed authors id.
Proof.
  split.
  - intros Hnil id Hid. apply elem_of_Object_values in Hid.
    rewrite Hnil in Hid. inversion Hid.
  - intros Hnone. destruct (Object_values authors) as [| id ids] eqn:E; [done |].
    exfalso. apply (Hnone id), elem_of_Object_values. rewrite E. left.
Qed.

Lemma author_filter_nil (items : list MergeRequest.t) :
  author_filter [] items = items.
Proof. reflexivity. Qed.

Lemma author_filter_cons (id : Z) (ids : list Z) (items : list MergeRequest.t) :
  author_filter (id :: ids) items =
  filter (λ mr, author_id mr ∈ id :: ids) items.
Proof.
  unfold author_filter. simpl length. cbn [Nat.ltb Nat.leb].
  apply Array_filter_filter. intros mr. apply array_includes_elem_of.
Qed.

(** C2. The author filter, for the ids that are the values of the
    configured authors table: with no such id it returns the list
    unchanged; with at least one, it returns exactly the items whose
    [author.id] is one of them, in their order: a sublist of the input in
    which every item has an allowed author and from which no item with
    an allowed author is missing. *)
Theorem author_filter_identity_and_completeness
    (authors : gmap string Z) (items : list MergeRequest.t) :
  let author_ids := Object_values authors in
  let kept := author_filter author_ids items in
  (∀ id, id ∈ author_ids ↔ allowed authors id) ∧
  ((∀ id, ¬ allowed authors id) → kept = items) ∧
  ((∃ id, allowed authors id) →
     kept = filter (λ mr, author_id mr ∈ author_ids) items ∧
     kept `sublist_of` items ∧
     (∀ mr, mr ∈ kept → allowed authors (author_id mr)) ∧
     (∀ mr, mr ∈ items → allowed authors (author_id mr) → mr ∈ kept)).
Proof.
  intros author_ids kept. split; [apply elem_of_Object_values |]. split.
  - intros Hnone. apply Object_values_nil in Hnone.
    subst kept author_ids. rewrite Hnone. apply author_filter_nil.
  - intros [id Hid]. apply elem_of_Object_values in Hid.
    assert (Hkept : kept = filter (λ mr, author_id mr ∈ author_ids) items).
    { subst kept. fold author_ids in Hid |- *.
      destruct author_ids as [| id0 ids]; [inversion Hid |].
      apply author_filter_cons. }
    split; [exact Hkept |]. rewrite Hkept. split; [apply sublist_filter |].
    split.
    + intros mr Hmr. apply list_elem_of_filter in Hmr as [Hmr _].
      by apply elem_of_Object_values.
    + intros mr Hmr Hal. apply list_elem_of_filter. split; [| done].
      by apply elem_of_Object_values.
Qed.

(** ** Grouping *)

Section MapFacts.
Context {K V : Type} `{EqDecision K}.
Implicit Types (m : Map K V) (k : K) (v : V).

Lemma Map_get_set_eq m k v : Map_get (Map_set m k v) k = Some v.
Proof.
  induction m as [| [k' v'] m IH]; simpl.
  - by rewrite decide_True.
  - destruct (decide (k' = k)) as [-> | Hne]; simpl.
    + by rewrite decide_True.
    + by rewrite decide_False.
Qed.

Lemma Map_get_set_ne m k k' v :
  k ≠ k' → Map_get (Map_set m k v) k' = Map_get m k'.
Proof.
  intros Hne. induction m as [| [k0 v0] m IH]; simpl.
  - by rewrite decide_False.
  - destruct (decide (k0 = k)) as [-> | Hne0]; simpl.
    + by rewrite !decide_False.
    + destruct (decide (k0 = k')); [done | apply IH].
Qed.

End MapFacts.

(** The array that [groupBy] holds under a key, when the loop starts
    from the map [m]: the array it held, followed by the elements of
    that key, in their order. *)
Lemma groupBy_loop {T K} `{EqDecision K} (f : T → K) (xs : list T)
    (m : Map K (list T)) (k : K) :
  Map_get
    (foldl (λ m x,
       let key := f x in
       if Map_has m key
       then match Map_get m key with
            | Some arr => Map_set m key (push arr x)
            | None => m
            end
       else Map_set m key [x]) m xs) k =
  match Map_get m k, filter (λ x, f x = k) xs with
  | Some arr, l => Some (arr ++ l)
  | None, [] => None
  | None, l => Some l
  end.
Proof.
  revert m. induction xs as [| x xs IH]; intros m.
  - simpl. destruct (Map_get m k); [by rewrite app_nil_r | done].
  - cbn [foldl]. rewrite IH, filter_cons. clear IH. cbv zeta.
    unfold Map_has, push.
    destruct (decide (f x = k)) as [<- | Hne].
    + destruct (Map_get m (f x)) as [arr |] eqn:Hget.
      * rewrite Map_get_set_eq. by rewrite <- app_assoc.
      * by rewrite Map_get_set_eq.
    + destruct (Map_get m (f x)) as [arr |] eqn:Hget;
        by rewrite Map_get_set_ne.
Qed.

Lemma Map_get_groupBy {T K} `{EqDecision K} (f : T → K) (xs : list T) (k : K) :
  Map_get (groupBy f xs) k =
  match filter (λ x, f x = k) xs with [] => None | l => Some l end.
Proof. unfold groupBy. by rewrite groupBy_loop. Qed.

Lemma blocked_or_ready_ready (mr : MergeRequest.t) :
  blocked_or_ready mr = "ready" ↔ MergeRequest.blockers mr = [].
Proof.
  unfold blocked_or_ready. by destruct (MergeRequest.blockers mr).
Qed.

Lemma blocked_or_ready_blocked (mr : MergeRequest.t) :
  blocked_or_ready mr = "blocked" ↔ MergeRequest.blockers mr ≠ [].
Proof.
  unfold blocked_or_ready. by destruct (MergeRequest.blockers mr).
Qed.

Lemma filter_iff {A} (P Q : A → Prop) `{!∀ x, Decision (P x)}
    `{!∀ x, Decision (Q x)} (l : list A) :
  (∀ x, P x ↔ Q x) → filter P l = filter Q l.
Proof.
  intros HPQ. induction l as [| x l IH]; [done |].
  rewrite !filter_cons, IH.
  destruct (decide (P x)) as [HP | HP], (decide (Q x)) as [HQ | HQ];
    try done; apply HPQ in HP || apply HPQ in HQ; done.
Qed.

Lemma bucket_filter (key : string) (items : list MergeRequest.t) :
  bucket key items = filter (λ mr, blocked_or_ready mr = key) items.
Proof.
  unfold bucket. rewrite Map_get_groupBy.
  by destruct (filter _ items).
Qed.

Lemma groupBy_keys (items : list MergeRequest.t) (key : string) :
  Map_has (groupBy blocked_or_ready items) key = true →
  key = "ready" ∨ key = "blocked".
Proof.
  unfold Map_has. rewrite Map_get_groupBy.
  destruct (filter _ items) as [| mr l] eqn:E; [discriminate |]. intros _.
  assert (Hmr : mr ∈ filter (λ x, blocked_or_ready x = key) items)
    by (rewrite E; left).
  apply list_elem_of_filter in Hmr as [<- _].
  unfold blocked_or_ready. destruct (_ <? _)%nat; auto.
Qed.

(** C3. Grouping is a partition of the enriched items: the "ready"
    bucket holds the items whose [blockers] list is empty and the
    "blocked" bucket those whose list is not, each in the order of the
    input; every item of the input is in exactly one of the two, the
    buckets together have the size and the members of the input, and
    the grouping has no other bucket. *)
Theorem grouping_is_a_partition (items : list MergeRequest.t) :
  let ready := bucket "ready" items in
  let blocked := bucket "blocked" items in
  ready = filter (λ mr, MergeRequest.blockers mr = []) items ∧
  blocked = filter (λ mr, MergeRequest.blockers mr ≠ []) items ∧
  (∀ mr, mr ∈ items →
     (mr ∈ ready ↔ MergeRequest.blockers mr = []) ∧
     (mr ∈ blocked ↔ MergeRequest.blockers mr ≠ [])) ∧
  (∀ mr, mr ∈ items →
     (mr ∈ ready ∧ ¬ mr ∈ blocked) ∨ (¬ mr ∈ ready ∧ mr ∈ blocked)) ∧
  (∀ mr, (mr ∈ ready ∨ mr ∈ blocked) ↔ mr ∈ items) ∧
  (length ready + length blocked)%nat = length items ∧
  ready ++ blocked ≡ₚ items ∧
  ready `sublist_of` items ∧
  blocked `sublist_of` items ∧
  (∀ key, Map_has (groupBy blocked_or_ready items) key = true →
     key = "ready" ∨ key = "blocked").
Proof.
  intros ready blocked.
  assert (Hready : ready = filter (λ mr, MergeRequest.blockers mr = []) items).
  { subst ready. rewrite bucket_filter.
    apply filter_iff, blocked_or_ready_ready. }
  assert (Hblocked :
    blocked = filter (λ mr, MergeRequest.blockers mr ≠ []) items).
  { subst blocked. rewrite bucket_filter.
    apply filter_iff, blocked_or_ready_blocked. }
  assert (Hperm : ready ++ blocked ≡ₚ items).
  { rewrite Hready, Hblocked. apply filter_app_complement. }
  assert (Hmem : ∀ mr, mr ∈ items →
     (mr ∈ ready ↔ MergeRequest.blockers mr = []) ∧
     (mr ∈ blocked ↔ MergeRequest.blockers mr ≠ [])).
  { intros mr Hmr. rewrite Hready, Hblocked, !list_elem_of_filter. tauto. }
  repeat split; try done; try (by apply Hmem).
  - intros mr Hmr. destruct (Hmem mr Hmr) as [Hr Hb].
    destruct (decide (MergeRequest.blockers mr = [])) as [He | Hne].
    + left. rewrite Hr, Hb. tauto.
    + right. rewrite Hr, Hb. tauto.
  - intros Hin. rewrite <- Hperm. apply elem_of_app. done.
  - intros Hin. rewrite <- Hperm in Hin. by apply elem_of_app in Hin.
  - rewrite <- Hperm. by rewrite length_app.
  - rewrite Hready. apply sublist_filter.
  - rewrite Hblocked. apply sublist_filter.
  - apply groupBy_keys.
Qed.

(** ** The fan-out *)

Lemma enrich_idempotent (a : MRApprovalStatus.t) (mr : MergeRequest.t) :
  enrich a (enrich a mr) = enrich a mr.
Proof. by destruct mr. Qed.

Section FanoutFacts.
Context `{FromJSON (list MergeRequest.t), FromJSON MRApprovalStatus.t}.
Context (this : GitLab.t) (net : Network).
Implicit Types (sent : list MergeRequest.t) (st : Fanout) (sched : list nat).

Lemma approval_call_Some sent i r :
  approval_call this net sent i = Some r → is_Some (sent !! i).
Proof. unfold approval_call. destruct (sent !! i); [eauto | discriminate]. Qed.

Lemma approval_call_None sent i :
  approval_call this net sent i = None → sent !! i = None.
Proof. unfold approval_call. by destruct (sent !! i). Qed.

Lemma complete_length sent st i :
  length (items (complete this net sent st i)) = length (items st).
Proof.
  unfold complete. destruct (approval_call _ _ _ _) as [r |]; [| done].
  destruct (items st !! i); [| done].
  destruct (rejection st), (result r); simpl; by rewrite ?length_insert.
Qed.

Lemma rejection_foldl_complete sent sched st :
  length (items st) = length sent →
  rejection (foldl (complete this net sent) st sched) =
  match rejection st with
  | Some e => Some e
  | None => first_rejection this net sent sched
  end.
Proof.
  revert st. induction sched as [| i sched IH]; intros st Hlen.
  { simpl. by destruct (rejection st). }
  cbn [foldl first_rejection].
  rewrite IH by (by rewrite complete_length). clear IH.
  unfold complete. destruct (approval_call _ _ _ _) as [r |] eqn:Hcall; [| done].
  destruct (approval_call_Some _ _ _ Hcall) as [mr0 Hmr0].
  destruct (lookup_lt_is_Some_2 (items st) i) as [mr Hmr].
  { rewrite Hlen. by eapply lookup_lt_Some. }
  rewrite Hmr. destruct (rejection st), (result r); done.
Qed.

Lemma settle_item_cons_ne sent (done : list nat) i j mr0 :
  j ≠ i → settle_item this net sent (i :: done) j mr0 =
          settle_item this net sent done j mr0.
Proof.
  intros Hne. unfold settle_item.
  destruct (approval_call this net sent j) as [r |]; [| done].
  destruct (result r); [| done].
  destruct (decide (j ∈ i :: done)) as [Hin | Hin],
           (decide (j ∈ done)) as [Hin' | Hin']; try done.
  - by apply elem_of_cons in Hin as [? | ?].
  - exfalso. apply Hin. by right.
Qed.

Lemma items_complete sent st (done : list nat) i :
  (∀ j, items st !! j = settle_item this net sent done j <$> sent !! j) →
  ∀ j, items (complete this net sent st i) !! j =
       settle_item this net sent (i :: done) j <$> sent !! j.
Proof.
  intros Hinv j. unfold complete.
  destruct (approval_call this net sent i) as [r |] eqn:Hcall.
  - destruct (approval_call_Some _ _ _ Hcall) as [mr0 Hmr0].
    pose proof (Hinv i) as Hi. rewrite Hmr0 in Hi. simpl in Hi. rewrite Hi.
    assert (Hitems :
      items (match rejection st with
             | Some e =>
               mkFanout
                 (match result r with
                  | Return approvals =>
                    <[i := enrich approvals (settle_item this net sent done i mr0)]>
                      (items st)
                  | Throw _ => items st
                  end) (Some e) (before st) (late st ++ trace r)
             | None =>
               mkFanout
                 (match result r with
                  | Return approvals =>
                    <[i := enrich approvals (settle_item this net sent done i mr0)]>
                      (items st)
                  | Throw _ => items st
                  end)
                 (match result r with Return _ => None | Throw e => Some e end)
                 (before st ++ trace r) []
             end) =
      match result r with
      | Return approvals =>
        <[i := enrich approvals (settle_item this net sent done i mr0)]> (items st)
      | Throw _ => items st
      end) by (by destruct (rejection st)).
    rewrite Hitems. clear Hitems.
    destruct (decide (j = i)) as [-> | Hne].
    + rewrite Hmr0. simpl. unfold settle_item at 2. rewrite Hcall.
      destruct (result r) as [a | e] eqn:Hres.
      * rewrite list_lookup_insert_eq
          by (apply lookup_lt_is_Some; rewrite Hi; eauto).
        rewrite decide_True by left. f_equal.
        unfold settle_item. rewrite Hcall, Hres.
        case_decide; [apply enrich_idempotent | done].
      * rewrite Hi. f_equal. unfold settle_item. by rewrite Hcall, Hres.
    + assert (Hj : items st !! j =
                   settle_item this net sent (i :: done) j <$> sent !! j).
      { rewrite Hinv. destruct (sent !! j); [| done]. simpl.
        by rewrite settle_item_cons_ne. }
      destruct (result r); [rewrite list_lookup_insert_ne by done |]; apply Hj.
  - rewrite Hinv. apply approval_call_None in Hcall.
    destruct (decide (j = i)) as [-> | Hne]; [by rewrite Hcall |].
    destruct (sent !! j) as [mr0 |]; [| done]. simpl.
    by rewrite settle_item_cons_ne.
Qed.

Lemma items_foldl_complete sent sched st (done : list nat) :
  (∀ j, items st !! j = settle_item this net sent done j <$> sent !! j) →
  ∀ j, items (foldl (complete this net sent) st sched) !! j =
       settle_item this net sent (rev sched ++ done) j <$> sent !! j.
Proof.
  revert st done. induction sched as [| i sched IH]; intros st done Hinv j.
  { apply Hinv. }
  cbn [foldl rev]. rewrite <- app_assoc. simpl.
  apply IH. by apply items_complete.
Qed.

Lemma all_completed_spec (n : nat) sched :
  all_completed n sched = true ↔ ∀ i, (i < n)%nat → i ∈ sched.
Proof.
  unfold all_completed. rewrite forallb_forall. split.
  - intros Hall i Hi. apply (bool_decide_eq_true_1 (i ∈ sched)), Hall, in_seq.
    lia.
  - intros Hall i Hi. apply in_seq in Hi.
    apply bool_decide_eq_true_2, Hall. lia.
Qed.

Lemma items_all_completed sent sched :
  all_completed (length sent) sched = true →
  items (foldl (complete this net sent)
           (mkFanout sent None (send_all this sent) []) sched) =
  enrich_all this net sent.
Proof.
  intros Hall. apply list_eq. intros j.
  rewrite (items_foldl_complete sent sched _ []).
  - unfold enrich_all. rewrite list_lookup_imap.
    destruct (sent !! j) as [mr0 |] eqn:Hj; [| done]. simpl. f_equal.
    unfold settle_item.
    destruct (approval_call this net sent j) as [r |]; [| done].
    destruct (result r); [| done].
    rewrite decide_True; [done |].
    rewrite app_nil_r, list_elem_of_In, <- in_rev, <- list_elem_of_In.
    eapply all_completed_spec; [done |]. by eapply lookup_lt_Some.
  - intros k. simpl. destruct (sent !! k) as [mr0 |]; [| done]. simpl.
    f_equal. unfold settle_item.
    destruct (approval_call this net sent k) as [r |]; [| done].
    destruct (result r); [| done].
    rewrite decide_False; [done | inversion 1].
Qed.

(** How [Promise.all] settles: with the first rejection to arrive; else,
    once every response has arrived, with the enriched array. *)
Lemma Promise_all_settled sent sched :
  settled (Promise_all this net sent sched) =
  match first_rejection this net sent sched with
  | Some e => Some (Throw e)
  | None =>
    if all_completed (length sent) sched
    then Some (Return (enrich_all this net sent))
    else None
  end.
Proof.
  unfold Promise_all. cbv zeta.
  rewrite rejection_foldl_complete by done. simpl.
  destruct (first_rejection this net sent sched); [done |].
  destruct (all_completed (length sent) sched) eqn:Hall; [| done].
  simpl. by rewrite items_all_completed.
Qed.

Lemma first_rejection_Some sent sched e :
  first_rejection this net sent sched = Some e →
  ∃ i, i ∈ sched ∧ approval_fails this net sent i e.
Proof.
  induction sched as [| i sched IH]; [discriminate |]. simpl.
  destruct (approval_call this net sent i) as [r |] eqn:Hcall.
  - destruct (result r) as [a | e'] eqn:Hres.
    + intros Hfirst. destruct (IH Hfirst) as (j & Hj & Hfail).
      exists j. split; [by right | done].
    + intros [= ->]. exists i. split; [left |]. by exists r.
  - intros Hfirst. destruct (IH Hfirst) as (j & Hj & Hfail).
    exists j. split; [by right | done].
Qed.

Lemma first_rejection_None sent sched i e :
  first_rejection this net sent sched = None →
  i ∈ sched → ¬ approval_fails this net sent i e.
Proof.
  induction sched as [| k sched IH]; [by inversion 2 |]. simpl.
  intros Hfirst Hi [r [Hcall Hres]].
  apply elem_of_cons in Hi as [-> | Hi].
  - rewrite Hcall, Hres in Hfirst. discriminate.
  - apply IH; [| done | by exists r].
    destruct (approval_call this net sent k) as [r' |]; [| done].
    by destruct (result r').
Qed.

End FanoutFacts.

(** ** What a run prints *)

Lemma trace_bind {A B} (m : M A) (k : A → M B) :
  trace (m ≫= k) =
  trace m ++ match result m with Return v => trace (k v) | Throw _ => [] end.
Proof.
  unfold mbind, M_bind. destruct (result m); simpl; by rewrite ?app_nil_r.
Qed.

Lemma result_bind {A B} (m : M A) (k : A → M B) :
  result (m ≫= k) =
  match result m with Return v => result (k v) | Throw e => Throw e end.
Proof. unfold mbind, M_bind. by destruct (result m). Qed.

Ltac run_M :=
  unfold mbind, M_bind, mret, M_ret, emit, throw; simpl.

Lemma silent_stdout (t : list Event) : Forall silent t → stdout t = [].
Proof.
  induction 1 as [| ev t Hev _ IH]; [done |].
  destruct ev; try done; exact IH.
Qed.

Lemma silent_errors (t : list Event) : Forall silent t → errors t = [].
Proof.
  induction 1 as [| ev t Hev _ IH]; [done |].
  destruct ev; try done; exact IH.
Qed.

Lemma offline_requests (t : list Event) : Forall offline t → requests t = [].
Proof.
  induction 1 as [| ev t Hev _ IH]; [done |].
  destruct ev; try done; exact IH.
Qed.

Lemma stdout_app (t1 t2 : list Event) : stdout (t1 ++ t2) = stdout t1 ++ stdout t2.
Proof. apply omap_app. Qed.

Lemma errors_app (t1 t2 : list Event) : errors (t1 ++ t2) = errors t1 ++ errors t2.
Proof. apply omap_app. Qed.

Lemma requests_app (t1 t2 : list Event) :
  requests (t1 ++ t2) = requests t1 ++ requests t2.
Proof. apply omap_app. Qed.

Lemma get_send_silent this uri params : Forall silent (trace (get_send this uri params)).
Proof. unfold get_send. run_M. by repeat constructor. Qed.

Lemma get_receive_silent {T} `{FromJSON T} logUrl res :
  Forall silent (trace (get_receive (T:=T) logUrl res)).
Proof.
  unfold get_receive. destruct res as [e | statusCode data]; run_M.
  { constructor. }
  destruct (truthy truthy_number statusCode) as [s |]; simpl.
  - destruct (_ || _); simpl; [constructor |].
    destruct (JSON_parse data); simpl; by repeat constructor.
  - destruct (JSON_parse data); simpl; by repeat constructor.
Qed.

Lemma get_silent {T} `{FromJSON T} this res uri params :
  Forall silent (trace (get (T:=T) this res uri params)).
Proof.
  unfold get. rewrite trace_bind. apply Forall_app_2.
  - apply get_send_silent.
  - destruct (result _); [apply get_receive_silent | constructor].
Qed.

Lemma constructor_silent config :
  Forall silent (trace (constructor config)) ∧
  Forall offline (trace (constructor config)).
Proof.
  unfold constructor.
  destruct (truthy truthy_string (config ≫= GitLabConfig.api_token));
    [| split; constructor].
  destruct (truthy truthy_number (config ≫= GitLabConfig.project_id));
    [| split; constructor].
  destruct (config ≫= GitLabConfig.authors) as [o |];
    [destruct (_ <? _)%nat |];
    destruct (truthy truthy_string (config ≫= GitLabConfig.target_branch));
    run_M; split; by repeat constructor.
Qed.

Section RunFacts.
Context `{FromJSON (list MergeRequest.t), FromJSON MRApprovalStatus.t}.

Lemma startup_silent HOME rc :
  Forall silent (trace (startup HOME rc)) ∧
  Forall offline (trace (startup HOME rc)).
Proof.
  unfold startup.
  destruct rc as [config | e]; [| run_M; split; by repeat constructor].
  destruct (constructor_silent config) as [Hs Ho].
  rewrite !trace_bind. simpl. rewrite trace_bind.
  destruct (result (constructor config)); simpl;
    rewrite ?app_nil_r; split;
    repeat (apply Forall_cons_2; [done |]);
    try (apply Forall_app_2; [done |]); by repeat constructor.
Qed.

Lemma send_all_silent this mrs : Forall silent (send_all this mrs).
Proof.
  unfold send_all. induction mrs as [| mr mrs IH]; [constructor |].
  simpl. by repeat constructor.
Qed.

Lemma complete_silent this net sent st i :
  Forall silent (before st) → Forall silent (late st) →
  Forall silent (before (complete this net sent st i)) ∧
  Forall silent (late (complete this net sent st i)).
Proof.
  intros Hb Hl. unfold complete.
  destruct (approval_call this net sent i) as [r |] eqn:Hcall; [| done].
  assert (Hr : Forall silent (trace r)).
  { unfold approval_call in Hcall. destruct (sent !! i); [| done].
    simpl in Hcall. injection Hcall as <-. apply get_receive_silent. }
  destruct (items st !! i); [| done].
  destruct (rejection st); simpl; split; try done;
    by apply Forall_app_2.
Qed.

Lemma foldl_complete_silent this net sent sched st :
  Forall silent (before st) → Forall silent (late st) →
  Forall silent (before (foldl (complete this net sent) st sched)) ∧
  Forall silent (late (foldl (complete this net sent) st sched)).
Proof.
  revert st. induction sched as [| i sched IH]; intros st Hb Hl; [done |].
  simpl. destruct (complete_silent this net sent st i Hb Hl). by apply IH.
Qed.

Lemma openMergeRequests_silent this net sched :
  Forall silent (printed (openMergeRequests this net sched)) ∧
  Forall silent (printed_late (openMergeRequests this net sched)).
Proof.
  unfold openMergeRequests. cbv zeta.
  pose proof (get_silent (T:=list MergeRequest.t) this (net 0%nat)
                "/merge_requests"
                [("scope", "all"); ("state", "opened");
                 ("target_branch", GitLab.target_branch this)]) as Hlist.
  set (listing := get _ _ _ _) in *.
  destruct (result listing) as [all_mrs | e]; cbn [printed printed_late];
    [| by split].
  set (mrs := author_filter _ all_mrs).
  destruct (foldl_complete_silent this net mrs sched
              (mkFanout mrs None (send_all this mrs) []))
    as [Hb Hl]; [apply send_all_silent | constructor |].
  unfold Promise_all. cbv zeta.
  destruct (rejection _); [| destruct (all_completed _ _)];
    cbn [printed printed_late]; (split; [by apply Forall_app_2 | done]).
Qed.

Lemma openMergeRequests_settled this net sched :
  settled (openMergeRequests this net sched) =
  match result (listing_call this net) with
  | Throw e => Some (Throw e)
  | Return all_mrs =>
    settled (Promise_all this net
               (author_filter (Object_values (GitLab.authors this)) all_mrs)
               sched)
  end.
Proof.
  unfold openMergeRequests, listing_call. cbv zeta.
  by destruct (result _).
Qed.

(** A run whose orchestrator rejects prints the message of the error on
    the error stream, once, and nothing on the primary output. *)
Lemma main_rejected HOME rc net sched isTTY gitlab e :
  result (startup HOME rc) = Return gitlab →
  settled (openMergeRequests gitlab net sched) = Some (Throw e) →
  stdout (main HOME rc net sched isTTY) = [] ∧
  errors (main HOME rc net sched isTTY) = [message e].
Proof.
  intros Hstart Hrun. unfold main. cbv zeta. rewrite Hstart, Hrun.
  destruct (startup_silent HOME rc) as [Hs _].
  destruct (openMergeRequests_silent gitlab net sched) as [Hp Hl].
  rewrite !stdout_app, !errors_app.
  rewrite (silent_stdout _ Hs), (silent_stdout _ Hp), (silent_stdout _ Hl).
  rewrite (silent_errors _ Hs), (silent_errors _ Hp), (silent_errors _ Hl).
  done.
Qed.

End RunFacts.

(** ** The orchestrator *)

Lemma enrich_fields (a : MRApprovalStatus.t) (mr : MergeRequest.t) :
  MergeRequest.approvals_needed (enrich a mr) =
    MRApprovalStatus.approvals_left a ∧
  MergeRequest.blockers (enrich a mr) = findBlockers (enrich a mr) ∧
  MergeRequest.set_blockers (MergeRequest.blockers mr)
    (MergeRequest.set_approvals_needed (MergeRequest.approvals_needed mr)
       (enrich a mr)) = mr.
Proof. by destruct mr. Qed.

Section OrchestratorFacts.
Context `{FromJSON (list MergeRequest.t), FromJSON MRApprovalStatus.t}.

Lemma filtered_Some this net mrs :
  filtered this net = Some mrs →
  ∃ all_mrs,
    result (listing_call this net) = Return all_mrs ∧
    mrs = author_filter (Object_values (GitLab.authors this)) all_mrs.
Proof.
  unfold filtered. destruct (result _) as [all_mrs | e]; [| discriminate].
  intros [= <-]. by exists all_mrs.
Qed.

Lemma first_rejection_all_return this net mrs sched :
  (∀ i mr, mrs !! i = Some mr → ∃ a, approval_returns this net mrs i a) →
  first_rejection this net mrs sched = None.
Proof.
  intros Hall. induction sched as [| i sched IH]; [done |]. simpl.
  destruct (approval_call this net mrs i) as [r |] eqn:Hcall; [| done].
  destruct (approval_call_Some _ _ _ _ _ Hcall) as [mr Hmr].
  destruct (Hall i mr Hmr) as (a & r' & Hcall' & Hres).
  rewrite Hcall in Hcall'. injection Hcall' as <-. by rewrite Hres.
Qed.

(** C4. All or nothing: when the listing call fails, or the approval call
    of any item fails, [openMergeRequests] rejects with the error of a
    failing call (of the listing call when that is the one; else of the
    first approval call whose failure arrives), nothing is written to the
    primary output, and the message of that error is the one thing the
    run reports. *)
Theorem run_is_all_or_nothing
    (HOME : option string) (rc : outcome (option GitLabConfig.t))
    (gitlab : GitLab.t) (net : Network) (sched : list nat) (isTTY : bool)
    (e : Error) :
  result (startup HOME rc) = Return gitlab →
  call_fails gitlab net sched e →
  ∃ e',
    call_fails gitlab net sched e' ∧
    (result (listing_call gitlab net) = Throw e → e' = e) ∧
    settled (openMergeRequests gitlab net sched) = Some (Throw e') ∧
    stdout (main HOME rc net sched isTTY) = [] ∧
    errors (main HOME rc net sched isTTY) = [message e'].
Proof.
  intros Hstart Hfail.
  assert (Hrej : ∃ e',
    call_fails gitlab net sched e' ∧
    (result (listing_call gitlab net) = Throw e → e' = e) ∧
    settled (openMergeRequests gitlab net sched) = Some (Throw e')).
  { rewrite openMergeRequests_settled.
    destruct Hfail as [Hlist | (mrs & i & Hmrs & Hi & Hcall)].
    - exists e. rewrite Hlist. split; [by left | done].
    - apply filtered_Some in Hmrs as Hall. destruct Hall as (all_mrs & Hlist & ->).
      rewrite Hlist, Promise_all_settled.
      destruct (first_rejection gitlab net _ sched) as [e' |] eqn:Hfirst.
      + exists e'. split; [| done].
        apply first_rejection_Some in Hfirst as (j & Hj & Hfail).
        right. by eexists _, j.
      + exfalso. by eapply first_rejection_None. }
  destruct Hrej as (e' & Hcalls & Hsame & Hset).
  exists e'. repeat split; try done; by eapply main_rejected.
Qed.

(** C6. Whatever the order in which the approval responses arrive, when
    they all succeed [openMergeRequests] returns the filtered items in
    their order: the [i]-th item returned is the [i]-th filtered item
    with [approvals_needed] and [blockers] assigned from its own
    response, and nothing else changed; no item is added or removed. *)
Theorem enrichment_preserves_order
    (this : GitLab.t) (net : Network) (mrs : list MergeRequest.t)
    (sched : list nat) :
  filtered this net = Some mrs →
  sched ≡ₚ seq 0 (length mrs) →
  (∀ i mr, mrs !! i = Some mr → ∃ a, approval_returns this net mrs i a) →
  ∃ out,
    settled (openMergeRequests this net sched) = Some (Return out) ∧
    length out = length mrs ∧
    ∀ i mr, mrs !! i = Some mr →
      ∃ a mr',
        approval_returns this net mrs i a ∧
        out !! i = Some mr' ∧
        mr' = enrich a mr ∧
        MergeRequest.approvals_needed mr' = MRApprovalStatus.approvals_left a ∧
        MergeRequest.blockers mr' = findBlockers mr' ∧
        MergeRequest.set_blockers (MergeRequest.blockers mr)
          (MergeRequest.set_approvals_needed
             (MergeRequest.approvals_needed mr) mr') = mr.
Proof.
  intros Hmrs Hsched Hall.
  apply filtered_Some in Hmrs as (all_mrs & Hlist & Hfilter).
  exists (enrich_all this net mrs). split; [| split].
  - rewrite openMergeRequests_settled, Hlist, <- Hfilter, Promise_all_settled.
    rewrite first_rejection_all_return by done.
    assert (Hdone : all_completed (length mrs) sched = true).
    { apply all_completed_spec. intros i Hi. rewrite Hsched.
      apply list_elem_of_In, in_seq. lia. }
    by rewrite Hdone.
  - unfold enrich_all. apply length_imap.
  - intros i mr Hmr. destruct (Hall i mr Hmr) as (a & r & Hcall & Hres).
    exists a, (enrich a mr). split; [by exists r |]. split.
    + unfold enrich_all. rewrite list_lookup_imap, Hmr. simpl.
      by rewrite Hcall, Hres.
    + split; [done | apply enrich_fields].
Qed.

End OrchestratorFacts.

(** ** Requests *)

Lemma append_assoc (s1 s2 s3 : string) : (s1 +:+ s2) +:+ s3 = s1 +:+ s2 +:+ s3.
Proof.
  induction s1 as [| c s1 IH]; [done |].
  change (String c ((s1 +:+ s2) +:+ s3) = String c (s1 +:+ s2 +:+ s3)).
  by f_equal.
Qed.

Lemma slice_append (s1 s2 : string) : slice (String.length s1) (s1 +:+ s2) = s2.
Proof. induction s1 as [| c s1 IH]; [by destruct s2 | exact IH]. Qed.

Lemma request_url_relative this uri params :
  request_url this uri params = baseURL this +:+ relative_url uri params.
Proof.
  unfold request_url, URL_toString, relative_url.
  destruct (truthy_string _); by rewrite ?append_assoc.
Qed.

Lemma request_logUrl_relative this uri params :
  request_logUrl this uri params = relative_url uri params.
Proof.
  unfold request_logUrl. by rewrite request_url_relative, slice_append.
Qed.

Section GetFacts.
Context {T : Type} `{FromJSON T}.
Context (this : GitLab.t) (res : string → Response).
Context (uri : string) (params : list (string * string)).

Lemma result_get :
  result (get (T:=T) this res uri params) =
  result (get_receive (T:=T) (request_logUrl this uri params)
            (res (request_url this uri params))).
Proof. unfold get. by rewrite result_bind. Qed.

Lemma trace_get :
  trace (get (T:=T) this res uri params) =
  [Log (request_logUrl this uri params +:+ " - requesting...");
   Request (request_url this uri params) ("Bearer " +:+ GitLab.api_token this)] ++
  trace (get_receive (T:=T) (request_logUrl this uri params)
           (res (request_url this uri params))).
Proof. unfold get. by rewrite trace_bind. Qed.

Lemma get_receive_status_rejected logUrl s data :
  s ≠ 0 → s < 200 ∨ 299 < s →
  get_receive (T:=T) logUrl (Reply (Some s) data) =
  mkM [] (Throw (mkError ("statusCode=" +:+ number_toString s))).
Proof.
  intros Hs Hout. unfold get_receive, truthy, truthy_number.
  destruct (Z.eqb_spec s 0) as [| _]; [done |]. simpl.
  assert (Hb : (s <? 200) || (s >=? 300) = true).
  { apply orb_true_iff. destruct Hout; [left | right]; lia. }
  by rewrite Hb.
Qed.

Lemma get_receive_status_passed logUrl statusCode data :
  (∀ s, statusCode = Some s → s = 0 ∨ 200 ≤ s ≤ 299) →
  get_receive (T:=T) logUrl (Reply statusCode data) =
  mkM [Log (logUrl +:+ " - received " +:+
            number_toString (Z.of_nat (String.length data)) +:+ " bytes.")]
      (JSON_parse data).
Proof.
  intros Hs. unfold get_receive, truthy, truthy_number.
  destruct statusCode as [s |]; [| by run_M].
  destruct (Z.eqb_spec s 0) as [| Hne]; simpl; [by run_M |].
  destruct (Hs s eq_refl) as [| Hin]; [done |].
  assert (Hb : (s <? 200) || (s >=? 300) = false).
  { apply orb_false_iff. split; lia. }
  rewrite Hb. by run_M.
Qed.

End GetFacts.

Section GetProperties.
Context {T : Type} `{FromJSON T}.
Context (this : GitLab.t) (res : string → Response).
Context (uri : string) (params : list (string * string)).

(** C5, as amended. [#get] is rejected when the response carries a
    status code that is not zero and is outside 200-299, with the message
    [statusCode=N]; it is rejected when the body of the response is not
    well-formed JSON; and when the status is in 200-299 and the body
    parses, it resolves with the parsed value. *)
Theorem get_rejects_bad_status_and_bad_body
    (statusCode : option Z) (data : string) :
  res (request_url this uri params) = Reply statusCode data →
  let m := get (T:=T) this res uri params in
  (∀ s, statusCode = Some s → s ≠ 0 → s < 200 ∨ 299 < s →
     result m = Throw (mkError ("statusCode=" +:+ number_toString s))) ∧
  (∀ e, JSON_parse data = Throw e → rejects m) ∧
  (∀ s v, statusCode = Some s → 200 ≤ s ≤ 299 →
     JSON_parse data = Return v → result m = Return v).
Proof.
  intros Hres m. subst m. rewrite result_get, Hres. repeat split.
  - intros s -> Hs Hout. by rewrite get_receive_status_rejected.
  - intros e Hparse. unfold rejects.
    destruct statusCode as [s |].
    + destruct (decide (s = 0 ∨ 200 ≤ s ≤ 299)) as [Hin | Hout].
      * exists e. rewrite result_get, Hres.
        by rewrite get_receive_status_passed by (by intros ? [= <-]).
      * eexists. rewrite result_get, Hres.
        by rewrite get_receive_status_rejected by lia.
    + exists e. rewrite result_get, Hres.
      by rewrite get_receive_status_passed by done.
  - intros s v -> Hs Hparse.
    rewrite get_receive_status_passed by (intros ? [= <-]; by right).
    done.
Qed.

(** C10. A response whose [statusCode] is [undefined] is not rejected on
    its status: the body is read, the line that reports its size is
    logged, and the call ends as [JSON.parse] does, so it resolves with
    the parsed value when the body parses.  A call whose response has a
    body that parses is rejected only when the response carries a status
    code, and then with the message [statusCode=N]. *)
Theorem undefined_status_is_not_rejected :
  (∀ data,
     res (request_url this uri params) = Reply None data →
     let m := get (T:=T) this res uri params in
     result m = JSON_parse data ∧
     (∀ v, JSON_parse data = Return v → result m = Return v) ∧
     Log (request_logUrl this uri params +:+ " - received " +:+
          number_toString (Z.of_nat (String.length data)) +:+ " bytes.")
       ∈ trace m) ∧
  (∀ statusCode data v,
     res (request_url this uri params) = Reply statusCode data →
     JSON_parse data = Return v →
     rejects (get (T:=T) this res uri params) →
     ∃ s, statusCode = Some s ∧
          result (get (T:=T) this res uri params) =
            Throw (mkError ("statusCode=" +:+ number_toString s))).
Proof.
  split.
  - intros data Hres m. subst m. rewrite result_get, trace_get, Hres.
    rewrite get_receive_status_passed by done. simpl.
    split; [done |]. split; [done |]. set_solver.
  - intros statusCode data v Hres Hparse [e He].
    rewrite result_get, Hres in He. rewrite result_get, Hres.
    destruct statusCode as [s |].
    + exists s. split; [done |].
      destruct (decide (s = 0 ∨ 200 ≤ s ≤ 299)) as [Hin | Hout].
      * rewrite get_receive_status_passed in He by (by intros ? [= <-]).
        simpl in He. congruence.
      * by rewrite get_receive_status_rejected by lia.
    + rewrite get_receive_status_passed in He by done.
      simpl in He. congruence.
Qed.

Lemma get_receive_trace logUrl (r : Response) :
  trace (get_receive (T:=T) logUrl r) = [] ∨
  ∃ n : nat,
    trace (get_receive (T:=T) logUrl r) =
    [Log (logUrl +:+ " - received " +:+ number_toString (Z.of_nat n) +:+
          " bytes.")].
Proof.
  destruct r as [e | statusCode data]; [by left |].
  destruct statusCode as [s |].
  - destruct (decide (s = 0 ∨ 200 ≤ s ≤ 299)) as [Hin | Hout].
    + rewrite get_receive_status_passed by (by intros ? [= <-]). eauto.
    + rewrite get_receive_status_rejected by lia. by left.
  - rewrite get_receive_status_passed by done. eauto.
Qed.

(** C8. The token is sent in the authorization header of the request and
    appears nowhere else: the two log lines of a request name the path
    and query of the URL relative to the base URL, the message of a
    rejection on the status is [statusCode=N], and neither the
    diagnostic lines nor the result of the call change when the
    instance holds another token. *)
Theorem token_only_in_authorization_header :
  let m := get (T:=T) this res uri params in
  let logUrl := relative_url uri params in
  requests (trace m) =
    [(baseURL this +:+ logUrl, "Bearer " +:+ GitLab.api_token this)] ∧
  (∃ received,
     diagnostics (trace m) = Log (logUrl +:+ " - requesting...") :: received ∧
     (received = [] ∨
      ∃ n : nat,
        received =
        [Log (logUrl +:+ " - received " +:+ number_toString (Z.of_nat n) +:+
              " bytes.")])) ∧
  (∀ s data,
     res (request_url this uri params) = Reply (Some s) data →
     s ≠ 0 → s < 200 ∨ 299 < s →
     result m = Throw (mkError ("statusCode=" +:+ number_toString s))) ∧
  (∀ api_token',
     let m' := get (T:=T) (with_api_token api_token' this) res uri params in
     diagnostics (trace m') = diagnostics (trace m) ∧ result m' = result m).
Proof.
  intros m logUrl. subst m logUrl.
  rewrite trace_get, result_get, request_logUrl_relative, request_url_relative.
  assert (Hother : ∀ api_token',
    diagnostics
      (trace (get (T:=T) (with_api_token api_token' this) res uri params)) =
    diagnostics
      ([Log (relative_url uri params +:+ " - requesting...");
        Request (baseURL this +:+ relative_url uri params)
          ("Bearer " +:+ GitLab.api_token this)] ++
       trace (get_receive (T:=T) (relative_url uri params)
                (res (baseURL this +:+ relative_url uri params)))) ∧
    result (get (T:=T) (with_api_token api_token' this) res uri params) =
    result (get_receive (T:=T) (relative_url uri params)
              (res (baseURL this +:+ relative_url uri params)))).
  { intros api_token'.
    by rewrite trace_get, result_get, !request_logUrl_relative,
      !request_url_relative. }
  split; [| split; [| split; [| exact Hother]]].
  - destruct (get_receive_trace (relative_url uri params)
                (res (baseURL this +:+ relative_url uri params)))
      as [-> | [n ->]]; done.
  - destruct (get_receive_trace (relative_url uri params)
                (res (baseURL this +:+ relative_url uri params)))
      as [-> | [n ->]].
    + exists []. split; [done | by left].
    + eexists. split; [done |]. right. by exists n.
  - intros s data Hres Hs Hout.
    by rewrite Hres, get_receive_status_rejected.
Qed.

End GetProperties.

(** ** Configuration *)

Lemma constructor_missing_api_token config :
  truthy truthy_string (config ≫= GitLabConfig.api_token) = None →
  constructor config = throw missing_api_token.
Proof. intros Htok. unfold constructor. by rewrite Htok. Qed.

Lemma constructor_missing_project_id config api_token :
  truthy truthy_string (config ≫= GitLabConfig.api_token) = Some api_token →
  truthy truthy_number (config ≫= GitLabConfig.project_id) = None →
  constructor config = throw missing_project_id.
Proof. intros Htok Hpid. unfold constructor. by rewrite Htok, Hpid. Qed.

Lemma constructor_without_authors config api_token project_id :
  truthy truthy_string (config ≫= GitLabConfig.api_token) = Some api_token →
  truthy truthy_number (config ≫= GitLabConfig.project_id) = Some project_id →
  config ≫= GitLabConfig.authors = None ∨
  config ≫= GitLabConfig.authors = Some ∅ →
  ∃ warnings,
    constructor config =
    mkM (Warn "missing or empty property `authors`" ::
         Warn "all open project MRs will be returned" :: warnings)
        (Return {| GitLab.api_token := api_token;
                   GitLab.authors := ∅;
                   GitLab.project_id := project_id;
                   GitLab.target_branch :=
                     default "main" (config ≫= GitLabConfig.target_branch) |}).
Proof.
  intros Htok Hpid Hauthors. unfold constructor. rewrite Htok, Hpid.
  assert (Hwarn :
    match config ≫= GitLabConfig.authors with
    | Some o => (length (Object_entries o) <? 1)%nat
    | None => true
    end = true ∧ default ∅ (config ≫= GitLabConfig.authors) = ∅).
  { destruct Hauthors as [-> | ->]; [done |].
    unfold Object_entries. by rewrite map_to_list_empty. }
  destruct Hwarn as [-> ->].
  destruct (truthy truthy_string (config ≫= GitLabConfig.target_branch));
    run_M; eexists; reflexivity.
Qed.

Section ConfigurationFacts.
Context `{FromJSON (list MergeRequest.t), FromJSON MRApprovalStatus.t}.

Lemma main_configuration_error HOME config net sched isTTY e :
  constructor config = throw e →
  main HOME (Return config) net sched isTTY =
  [Log ("Checking for configuration file " +:+ default "" HOME +:+
        "/.mrstat.json");
   ConsoleError (message e)].
Proof.
  intros Hc. unfold main, startup, mbind, M_bind, emit.
  cbn -[constructor]. rewrite Hc. by run_M.
Qed.

Lemma main_first_request HOME config net sched isTTY warnings gitlab :
  constructor config = mkM warnings (Return gitlab) →
  ∃ more,
    requests (main HOME (Return config) net sched isTTY) =
    (request_url gitlab "/merge_requests"
       [("scope", "all"); ("state", "opened");
        ("target_branch", GitLab.target_branch gitlab)],
     "Bearer " +:+ GitLab.api_token gitlab) :: more.
Proof.
  intros Hc. unfold main. cbv zeta.
  destruct (startup_silent HOME (Return config)) as [_ Hoff].
  assert (Hstart : result (startup HOME (Return config)) = Return gitlab).
  { unfold startup. rewrite !result_bind. cbn -[constructor].
    rewrite result_bind, Hc. done. }
  rewrite Hstart, !requests_app, (offline_requests _ Hoff).
  unfold openMergeRequests. cbv zeta.
  set (listing := get _ _ _ _).
  assert (Hlisting : ∃ more,
    requests (trace listing) =
    (request_url gitlab "/merge_requests"
       [("scope", "all"); ("state", "opened");
        ("target_branch", GitLab.target_branch gitlab)],
     "Bearer " +:+ GitLab.api_token gitlab) :: more).
  { subst listing. rewrite trace_get. eexists. reflexivity. }
  destruct Hlisting as [more Hmore].
  destruct (result listing); cbn [printed];
    rewrite ?requests_app, Hmore; eexists; reflexivity.
Qed.

(** C7. A configuration without [api_token] or without [project_id] makes
    the constructor throw a configuration error, and the run then sends
    no request, writes no report and reports that error.  With both
    present, a configuration without [authors], or with an empty table,
    is accepted: the constructor warns and returns an instance whose
    author filter keeps every item, and the run goes on to send the
    listing request. *)
Theorem missing_required_field_is_fatal (config : option GitLabConfig.t) :
  (config ≫= GitLabConfig.api_token = None ∨
   config ≫= GitLabConfig.project_id = None →
   ∃ e,
     constructor config = throw e ∧
     (e = missing_api_token ∨ e = missing_project_id) ∧
     ∀ HOME net sched isTTY,
       requests (main HOME (Return config) net sched isTTY) = [] ∧
       stdout (main HOME (Return config) net sched isTTY) = [] ∧
       errors (main HOME (Return config) net sched isTTY) = [message e]) ∧
  (∀ api_token project_id,
     truthy truthy_string (config ≫= GitLabConfig.api_token) = Some api_token →
     truthy truthy_number (config ≫= GitLabConfig.project_id) = Some project_id →
     config ≫= GitLabConfig.authors = None ∨
     config ≫= GitLabConfig.authors = Some ∅ →
     ∃ gitlab,
       result (constructor config) = Return gitlab ∧
       Warn "missing or empty property `authors`" ∈ trace (constructor config) ∧
       Warn "all open project MRs will be returned" ∈ trace (constructor config) ∧
       (∀ all_mrs,
          author_filter (Object_values (GitLab.authors gitlab)) all_mrs =
          all_mrs) ∧
       ∀ HOME net sched isTTY,
         ∃ more,
           requests (main HOME (Return config) net sched isTTY) =
           (request_url gitlab "/merge_requests"
              [("scope", "all"); ("state", "opened");
               ("target_branch", GitLab.target_branch gitlab)],
            "Bearer " +:+ api_token) :: more).
Proof.
  split.
  - intros Hmissing.
    assert (He : ∃ e, constructor config = throw e ∧
                      (e = missing_api_token ∨ e = missing_project_id)).
    { destruct (truthy truthy_string (config ≫= GitLabConfig.api_token))
        as [api_token |] eqn:Htok.
      - destruct Hmissing as [Hm | Hm]; [by rewrite Hm in Htok |].
        exists missing_project_id. split; [| by right].
        apply (constructor_missing_project_id _ api_token); [done |].
        by rewrite Hm.
      - exists missing_api_token. split; [| by left].
        by apply constructor_missing_api_token. }
    destruct He as (e & Hc & He). exists e. split; [done |]. split; [done |].
    intros HOME net sched isTTY.
    by rewrite (main_configuration_error _ _ _ _ _ e).
  - intros api_token project_id Htok Hpid Hauthors.
    destruct (constructor_without_authors _ _ _ Htok Hpid Hauthors)
      as [warnings Hc].
    eexists. rewrite Hc. cbn [result trace GitLab.authors]. split; [done |].
    split; [left |]. split; [right; left |]. split.
    + intros all_mrs. unfold Object_values. cbn [GitLab.authors].
      by rewrite map_to_list_empty.
    + intros HOME net sched isTTY.
      destruct (main_first_request HOME config net sched isTTY _ _ Hc)
        as [more Hmore].
      by exists more.
Qed.

End ConfigurationFacts.

(** C9. The required fields are tested by truthiness: a configuration
    whose [api_token] is the empty string, and one whose [project_id] is
    0, make the constructor throw the error of a missing field, as the
    same configuration without the field does. *)
Theorem required_fields_are_tested_by_truthiness (config : GitLabConfig.t) :
  (GitLabConfig.api_token config = Some "" →
   constructor (Some config) = throw missing_api_token ∧
   constructor (Some (config_with_api_token None config)) =
     throw missing_api_token) ∧
  (∀ api_token,
     truthy truthy_string (GitLabConfig.api_token config) = Some api_token →
     GitLabConfig.project_id config = Some 0 →
     constructor (Some config) = throw missing_project_id ∧
     constructor (Some (config_with_project_id None config)) =
       throw missing_project_id).
Proof.
  split.
  - intros Htok. split.
    + apply constructor_missing_api_token. simpl. by rewrite Htok.
    + by apply constructor_missing_api_token.
  - intros api_token Htok Hpid. split.
    + apply (constructor_missing_project_id _ api_token); simpl; [done |].
      by rewrite Hpid.
    + by apply (constructor_missing_project_id _ api_token).
Qed.

(** * The sample run *)

(** The report of the sample: one item ready, one blocked by its
    conflicts and by the approval it still needs. *)
Example sample_report :
  stdout
    (main (H:=Sample.parse_listing) (H0:=Sample.parse_approvals)
       (Some "/home/edgar") (Return (Some Sample.config)) Sample.net
       [1; 0]%nat false) =
  [newline +:+ "*Open MRs against `master`:*" +:+ newline +:+
   "* *Ready to Merge*" +:+ newline +:+
   "    * [feat: disable animations](https://gitlab.com/yourco/your-project/-/merge_requests/28) (bob)" +:+ newline +:+
   "* *Blocked*" +:+ newline +:+
   "    * [feat: make feature work on mobile](https://gitlab.com/yourco/your-project/-/merge_requests/27) (alice)" +:+ newline +:+
   "        * Labels: backend, urgent" +:+ newline +:+
   "        * has conflicts, requires approval (1)" +:+ newline].
Proof. vm_compute. reflexivity. Qed.

(** A failed approval call leaves the error, and no report. *)
Example sample_failure :
  let t :=
    main (H:=Sample.parse_listing) (H0:=Sample.parse_approvals)
      (Some "/home/edgar") (Return (Some Sample.config)) Sample.net_500
      [0; 1]%nat false in
  stdout t = [] ∧ errors t = ["statusCode=500"].
Proof. vm_compute. split; reflexivity. Qed.

(** All four conditions hold on [mr29], none on [mr28]. *)
Lemma findBlockers_four_conditions_witness :
  findBlockers Sample.mr29 =
    ["unresolved threads"; "has conflicts"; "cannot be merged";
     "requires approval (2)"] ∧
  findBlockers Sample.mr28 = [].
Proof.
  destruct findBlockers_four_conditions as (_ & _ & Hall & Hnone). split.
  - apply Hall; [reflexivity | reflexivity | left; reflexivity | reflexivity].
  - apply Hnone.
    + intros Hc. discriminate Hc.
    + intros Hc. discriminate Hc.
    + intros [Hc | Hc]; discriminate Hc.
    + intros Hc. discriminate Hc.
Defined.

(** With the table of the sample, the item of the third author is
    dropped; with an empty table, nothing is. *)
Lemma author_filter_identity_and_completeness_witness :
  ((∀ id, ¬ allowed ∅ id) ∧
   author_filter (Object_values ∅) [Sample.mr27; Sample.mr30; Sample.mr28] =
     [Sample.mr27; Sample.mr30; Sample.mr28]) ∧
  ((∃ id, allowed (GitLab.authors Sample.gitlab) id) ∧
   author_filter (Object_values (GitLab.authors Sample.gitlab))
     [Sample.mr27; Sample.mr30; Sample.mr28] =
   filter (λ mr, author_id mr ∈ Object_values (GitLab.authors Sample.gitlab))
     [Sample.mr27; Sample.mr30; Sample.mr28]).
Proof.
  assert (Hnone : ∀ id, ¬ allowed ∅ id).
  { intros id [name Hname]. rewrite lookup_empty in Hname. discriminate. }
  assert (Hsome : ∃ id, allowed (GitLab.authors Sample.gitlab) id).
  { exists 1010, "alice". vm_compute. reflexivity. }
  split; (split; [assumption |]).
  - apply (author_filter_identity_and_completeness ∅
             [Sample.mr27; Sample.mr30; Sample.mr28]), Hnone.
  - apply (author_filter_identity_and_completeness
             (GitLab.authors Sample.gitlab)
             [Sample.mr27; Sample.mr30; Sample.mr28]), Hsome.
Defined.

(** [mr28] has no blocker and [mr30] has one. *)
Lemma grouping_is_a_partition_witness :
  let items := [Sample.mr30; Sample.mr28] in
  (Sample.mr28 ∈ items ∧
   (Sample.mr28 ∈ bucket "ready" items ∧ ¬ Sample.mr28 ∈ bucket "blocked" items ∨
    ¬ Sample.mr28 ∈ bucket "ready" items ∧ Sample.mr28 ∈ bucket "blocked" items)) ∧
  (Sample.mr30 ∈ items ∧
   (Sample.mr30 ∈ bucket "blocked" items ↔
    MergeRequest.blockers Sample.mr30 ≠ [])).
Proof.
  intros items.
  assert (H28 : Sample.mr28 ∈ items) by (right; left).
  assert (H30 : Sample.mr30 ∈ items) by left.
  destruct (grouping_is_a_partition items)
    as (_ & _ & Hiff & Hone & _).
  split; (split; [assumption |]).
  - apply Hone, H28.
  - apply Hiff, H30.
Defined.

(** The second approval call of the sample answers with status 500, and
    its response is the first to arrive. *)
Lemma run_is_all_or_nothing_witness :
  let rc := Return (Some Sample.config) in
  let main_500 :=
    main (H:=Sample.parse_listing) (H0:=Sample.parse_approvals)
      (Some "/home/edgar") rc Sample.net_500 [1; 0]%nat true in
  call_fails (H:=Sample.parse_listing) (H0:=Sample.parse_approvals)
    Sample.gitlab Sample.net_500 [1; 0]%nat (mkError "statusCode=500") ∧
  ∃ e',
    settled (openMergeRequests (H:=Sample.parse_listing)
               (H0:=Sample.parse_approvals) Sample.gitlab Sample.net_500
               [1; 0]%nat) = Some (Throw e') ∧
    stdout main_500 = [] ∧
    errors main_500 = [message e'].
Proof.
  intros rc main_500.
  assert (Hstart :
    result (startup (Some "/home/edgar") rc) = Return Sample.gitlab)
    by (vm_compute; reflexivity).
  assert (Hfail :
    call_fails (H:=Sample.parse_listing) (H0:=Sample.parse_approvals)
      Sample.gitlab Sample.net_500 [1; 0]%nat (mkError "statusCode=500")).
  { right. exists [Sample.mr27; Sample.mr28], 1%nat.
    split; [vm_compute; reflexivity |]. split; [left |].
    eexists. split; vm_compute; reflexivity. }
  split; [exact Hfail |].
  destruct (run_is_all_or_nothing (H:=Sample.parse_listing)
              (H0:=Sample.parse_approvals) (Some "/home/edgar") rc
              Sample.gitlab Sample.net_500 [1; 0]%nat true
              (mkError "statusCode=500") Hstart Hfail)
    as (e' & _ & _ & Hset & Hout & Herr).
  exists e'. split; [exact Hset |]. split; [exact Hout | exact Herr].
Defined.

(** A response with status 0 and a body that parses: the call resolves. *)
Lemma get_resolves_on_status_0 :
  let res := Sample.always (Some 0) "[]" in
  let m := get (H:=Sample.parse_listing) Sample.gitlab res "/merge_requests" [] in
  status_outside_2xx (res (request_url Sample.gitlab "/merge_requests" [])) ∧
  result m = Return [] ∧
  ¬ rejects m.
Proof.
  intros res m. split; [| split].
  - exists 0, "[]". split; [reflexivity | lia].
  - vm_compute. reflexivity.
  - intros [e He]. vm_compute in He. discriminate He.
Qed.

(** Status 500 is rejected, a truncated body is rejected, and status 200
    with a body that parses resolves. *)
Lemma get_rejects_bad_status_and_bad_body_witness :
  result (get (H:=Sample.parse_listing) Sample.gitlab
            (Sample.always (Some 500) "[]") "/merge_requests" []) =
    Throw (mkError "statusCode=500") ∧
  rejects (get (H:=Sample.parse_listing) Sample.gitlab
             (Sample.always (Some 200) "[27,") "/merge_requests" []) ∧
  result (get (H:=Sample.parse_listing) Sample.gitlab
            (Sample.always (Some 200) "[]") "/merge_requests" []) =
    Return [].
Proof.
  split; [| split].
  - destruct (get_rejects_bad_status_and_bad_body (H:=Sample.parse_listing)
                Sample.gitlab (Sample.always (Some 500) "[]") "/merge_requests"
                [] (Some 500) "[]" eq_refl) as (Hstatus & _ & _).
    apply (Hstatus 500); [reflexivity | lia | lia].
  - destruct (get_rejects_bad_status_and_bad_body (H:=Sample.parse_listing)
                Sample.gitlab (Sample.always (Some 200) "[27,")
                "/merge_requests" [] (Some 200) "[27," eq_refl)
      as (_ & Hbody & _).
    apply (Hbody Sample.syntax_error). reflexivity.
  - destruct (get_rejects_bad_status_and_bad_body (H:=Sample.parse_listing)
                Sample.gitlab (Sample.always (Some 200) "[]") "/merge_requests"
                [] (Some 200) "[]" eq_refl) as (_ & _ & Hok).
    apply (Hok 200); [reflexivity | lia | reflexivity].
Defined.

(** The two approval responses of the sample arrive in reverse order. *)
Lemma enrichment_preserves_order_witness :
  let mrs := [Sample.mr27; Sample.mr28] in
  filtered (H:=Sample.parse_listing) Sample.gitlab Sample.net = Some mrs ∧
  [1; 0]%nat ≡ₚ seq 0 (length mrs) ∧
  ∃ out,
    settled (openMergeRequests (H:=Sample.parse_listing)
               (H0:=Sample.parse_approvals) Sample.gitlab Sample.net
               [1; 0]%nat) = Some (Return out) ∧
    length out = length mrs.
Proof.
  intros mrs.
  assert (Hmrs :
    filtered (H:=Sample.parse_listing) Sample.gitlab Sample.net = Some mrs)
    by (vm_compute; reflexivity).
  assert (Hsched : [1; 0]%nat ≡ₚ seq 0 (length mrs)) by apply perm_swap.
  assert (Hall : ∀ i mr, mrs !! i = Some mr →
    ∃ a, approval_returns (H0:=Sample.parse_approvals)
           Sample.gitlab Sample.net mrs i a).
  { intros [| [| i]] mr Hmr; [| | discriminate Hmr];
      eexists; eexists; split; vm_compute; reflexivity. }
  split; [exact Hmrs |]. split; [exact Hsched |].
  destruct (enrichment_preserves_order (H:=Sample.parse_listing)
              (H0:=Sample.parse_approvals) Sample.gitlab Sample.net mrs
              [1; 0]%nat Hmrs Hsched Hall)
    as (out & Hout & Hlen & _).
  exists out. split; [exact Hout | exact Hlen].
Defined.

(** Without [api_token] the run stops before the listing request; without
    [authors] it sends it. *)
Lemma missing_required_field_is_fatal_witness :
  (Some Sample.config_without_api_token ≫= GitLabConfig.api_token = None ∧
   ∃ e,
     constructor (Some Sample.config_without_api_token) = throw e ∧
     requests
       (main (H:=Sample.parse_listing) (H0:=Sample.parse_approvals)
          (Some "/home/edgar") (Return (Some Sample.config_without_api_token))
          Sample.net [0; 1]%nat false) = []) ∧
  (Some Sample.config_without_authors ≫= GitLabConfig.authors = None ∧
   ∃ gitlab,
     result (constructor (Some Sample.config_without_authors)) = Return gitlab ∧
     author_filter (Object_values (GitLab.authors gitlab))
       [Sample.mr27; Sample.mr30] = [Sample.mr27; Sample.mr30]).
Proof.
  split.
  - split; [reflexivity |].
    destruct (missing_required_field_is_fatal (H:=Sample.parse_listing)
                (H0:=Sample.parse_approvals)
                (Some Sample.config_without_api_token)) as [Hfatal _].
    destruct (Hfatal (or_introl eq_refl)) as (e & Hthrow & _ & Hrun).
    exists e. split; [exact Hthrow |].
    apply (Hrun (Some "/home/edgar") Sample.net [0; 1]%nat false).
  - split; [reflexivity |].
    destruct (missing_required_field_is_fatal (H:=Sample.parse_listing)
                (H0:=Sample.parse_approvals)
                (Some Sample.config_without_authors)) as [_ Hwarn].
    destruct (Hwarn "SECRET" 12345678 eq_refl eq_refl (or_introl eq_refl))
      as (gitlab & Hgitlab & _ & _ & Hfilter & _).
    exists gitlab. split; [exact Hgitlab | apply Hfilter].
Defined.

(** A request answered with status 401: the token is in the header, and
    the rejection names the status. *)
Lemma token_only_in_authorization_header_witness :
  let res := Sample.always (Some 401) "{}" in
  let m := get (H:=Sample.parse_approvals) Sample.gitlab res
             "/merge_requests/27/approvals" [] in
  res (request_url Sample.gitlab "/merge_requests/27/approvals" []) =
    Reply (Some 401) "{}" ∧
  requests (trace m) =
    [("https://gitlab.com/api/v4/projects/12345678/merge_requests/27/approvals",
      "Bearer SECRET")] ∧
  result m = Throw (mkError "statusCode=401").
Proof.
  intros res m.
  destruct (token_only_in_authorization_header (H:=Sample.parse_approvals)
              Sample.gitlab res "/merge_requests/27/approvals" [])
    as (Hreq & _ & Hstatus & _).
  split; [reflexivity |]. split; [exact Hreq |].
  apply (Hstatus 401 "{}"); [reflexivity | lia | lia].
Defined.

(** An empty token, and a project id of 0. *)
Lemma required_fields_are_tested_by_truthiness_witness :
  (GitLabConfig.api_token Sample.config_with_empty_api_token = Some "" ∧
   constructor (Some Sample.config_with_empty_api_token) =
     throw missing_api_token) ∧
  (GitLabConfig.project_id Sample.config_with_project_id_0 = Some 0 ∧
   constructor (Some Sample.config_with_project_id_0) =
     throw missing_project_id).
Proof.
  split; (split; [reflexivity |]).
  - destruct (required_fields_are_tested_by_truthiness
                Sample.config_with_empty_api_token) as [Htok _].
    apply Htok. reflexivity.
  - destruct (required_fields_are_tested_by_truthiness
                Sample.config_with_project_id_0) as [_ Hpid].
    apply (Hpid "SECRET"); reflexivity.
Defined.

(** A response without a status code, whose body parses. *)
Lemma undefined_status_is_not_rejected_witness :
  let res := Sample.always None "[27,28]" in
  res (request_url Sample.gitlab "/merge_requests" []) = Reply None "[27,28]" ∧
  result (get (H:=Sample.parse_listing) Sample.gitlab res "/merge_requests" []) =
    Return [Sample.mr27; Sample.mr28].
Proof.
  intros res. split; [reflexivity |].
  destruct (undefined_status_is_not_rejected (H:=Sample.parse_listing)
              Sample.gitlab res "/merge_requests" []) as [Hundefined _].
  destruct (Hundefined "[27,28]" eq_refl) as (_ & Hparsed & _).
  apply Hparsed. reflexivity.
Defined.

(** * Further properties *)

(** ** [groupBy] in general *)

Section MapSetFacts.
Context {K V : Type} `{EqDecision K}.
Implicit Types (m : Map K V) (k : K) (v : V).




End MapSetFacts.









(** ** The text of the report *)

Lemma append_nil_r (s : string) : s +:+ "" = s.
Proof.
  induction s as [| c s IH]; [done |].
  change (String c (s +:+ "") = String c s). by f_equal.
Qed.

Lemma join_empty (xs : list string) : join "" xs = concat_strings xs.
Proof.
  induction xs as [| x xs IH]; [done |].
  cbn [join concat_strings]. destruct xs as [| y xs].
  - by rewrite append_nil_r.
  - by rewrite IH.
Qed.

Lemma concat_strings_app (xs ys : list string) :
  concat_strings (xs ++ ys) = concat_strings xs +:+ concat_strings ys.
Proof.
  induction xs as [| x xs IH]; [done |].
  cbn [app concat_strings]. by rewrite IH, append_assoc.
Qed.

(** The lines that the loop of [formatMRs] pushes for one item. *)
Lemma formatMRs_loop (output : list string) (mrs : list MergeRequest.t) :
  concat_strings
    (foldl (λ output mr,
       let output :=
         push output
           ("    * [" +:+ MergeRequest.title mr +:+ "](" +:+
            MergeRequest.web_url mr +:+ ") (" +:+
            Author.username (MergeRequest.author mr) +:+ ")" +:+ newline) in
       let output :=
         if (0 <? length (MergeRequest.labels mr))%nat
         then push output
                ("        * Labels: " +:+ join ", " (MergeRequest.labels mr) +:+
                 newline)
         else output in
       let output :=
         if (0 <? length (MergeRequest.blockers mr))%nat
         then push output
                ("        * " +:+ join ", " (MergeRequest.blockers mr) +:+
                 newline)
         else output in
       output) output mrs) =
  concat_strings output +:+ concat_strings (format_item <$> mrs).
Proof.
  revert output. induction mrs as [| mr mrs IH]; intros output.
  { simpl. by rewrite append_nil_r. }
  cbn [foldl]. rewrite IH. clear IH. rewrite fmap_cons.
  cbn [concat_strings].
  rewrite <- (append_assoc (concat_strings output) (format_item mr)).
  f_equal. unfold format_item, push.
  destruct (MergeRequest.labels mr) as [| l ls],
           (MergeRequest.blockers mr) as [| b bs];
    cbn [length Nat.ltb Nat.leb];
    rewrite ?concat_strings_app; cbn [concat_strings];
    by rewrite ?append_nil_r, ?append_assoc.
Qed.

Lemma formatMRs_concat (header : string) (mrs : list MergeRequest.t) :
  formatMRs header mrs =
  ("* *" +:+ header +:+ "*" +:+ newline) +:+
  concat_strings (format_item <$> mrs).
Proof.
  unfold formatMRs. cbv zeta. rewrite join_empty, formatMRs_loop.
  cbn [concat_strings]. by rewrite append_nil_r.
Qed.

(** X3. The text of [formatMRs] is the header line followed by the lines
    of each item, in order: the item line, then the labels line when the
    item has labels, then the blockers line when it has blockers.  For
    no item it is the header line alone, and the text for two lists one
    after the other is the text of the first followed by the lines of
    the second. *)
Theorem formatMRs_is_header_then_items
    (header : string) (mrs mrs' : list MergeRequest.t) :
  formatMRs header mrs =
    ("* *" +:+ header +:+ "*" +:+ newline) +:+
    concat_strings (format_item <$> mrs) ∧
  formatMRs header [] = "* *" +:+ header +:+ "*" +:+ newline ∧
  formatMRs header (mrs ++ mrs') =
    formatMRs header mrs +:+ concat_strings (format_item <$> mrs').
Proof.
  split; [apply formatMRs_concat |]. split.
  - rewrite formatMRs_concat. simpl. by rewrite append_nil_r.
  - rewrite !formatMRs_concat, fmap_app, concat_strings_app.
    by rewrite !append_assoc.
Qed.

Lemma formatMRs_truthy (header : string) (mrs : list MergeRequest.t) :
  truthy truthy_string (Some (formatMRs header mrs)) =
  Some (formatMRs header mrs).
Proof. by rewrite formatMRs_concat. Qed.

Lemma header_truthy (s : string) :
  truthy truthy_string (Some (newline +:+ s)) = Some (newline +:+ s).
Proof. reflexivity. Qed.

Lemma append_nil_l (s : string) : "" +:+ s = s.
Proof. reflexivity. Qed.

Lemma Map_get_bucket (key : string) (items : list MergeRequest.t) :
  Map_get (groupBy blocked_or_ready items) key =
  match filter (λ mr, blocked_or_ready mr = key) items with
  | [] => None
  | l => Some l
  end.
Proof. apply Map_get_groupBy. Qed.

Lemma report_output (gitlab : GitLab.t) (items : list MergeRequest.t) :
  let mrs := groupBy blocked_or_ready items in
  join ""
    (filter_Boolean
       [Some (newline +:+ "*Open MRs against `" +:+
              GitLab.target_branch gitlab +:+ "`:*" +:+ newline);
        if Map_has mrs "ready"
        then Some (formatMRs "Ready to Merge"
                     (default [] (Map_get mrs "ready")))
        else None;
        if Map_has mrs "blocked"
        then Some (formatMRs "Blocked" (default [] (Map_get mrs "blocked")))
        else None]) =
  report_text gitlab items.
Proof.
  cbv zeta. unfold Map_has, report_text. rewrite !Map_get_bucket.
  rewrite (filter_iff _ _ items blocked_or_ready_ready).
  rewrite (filter_iff _ _ items blocked_or_ready_blocked).
  rewrite join_empty. unfold filter_Boolean.
  destruct (filter (λ mr, MergeRequest.blockers mr = []) items) as [| r rs];
    destruct (filter (λ mr, MergeRequest.blockers mr ≠ []) items) as [| b bs];
    cbn [omap list_omap default report_section];
    rewrite ?formatMRs_truthy, header_truthy; cbn [truthy concat_strings id];
    by rewrite ?append_nil_r, ?append_nil_l.
Qed.


(** ** The constructor *)

Lemma truthy_string_Some (x : option string) (s : string) :
  truthy truthy_string x = Some s ↔ x = Some s ∧ s ≠ "".
Proof.
  destruct x as [[| c s'] |]; simpl; split; try done.
  - by intros [[= <-] Hne].
  - intros [= <-]. done.
  - by intros [[= <-] _].
  - by intros [? _].
Qed.

Lemma truthy_number_Some (x : option Z) (n : Z) :
  truthy truthy_number x = Some n ↔ x = Some n ∧ n ≠ 0.
Proof.
  unfold truthy, truthy_number. destruct x as [m |]; [| by split; [| intros []]].
  destruct (Z.eqb_spec m 0) as [-> | Hne]; simpl; split; try done.
  - by intros [[= <-] Hne].
  - intros [= <-]. done.
  - by intros [[= <-] _].
Qed.

(** X5. The constructor returns an instance exactly when the
    configuration is an object whose [api_token] is a non-empty string
    and whose [project_id] is a number other than 0; the instance then
    holds these two, the [authors] table of the configuration, or an
    empty one when it has none, and its [target_branch], or "main" when
    it has none. *)
Theorem constructor_returns_iff
    (config : option GitLabConfig.t) (gitlab : GitLab.t) :
  result (constructor config) = Return gitlab ↔
  ∃ cfg api_token project_id,
    config = Some cfg ∧
    GitLabConfig.api_token cfg = Some api_token ∧ api_token ≠ "" ∧
    GitLabConfig.project_id cfg = Some project_id ∧ project_id ≠ 0 ∧
    gitlab =
      {| GitLab.api_token := api_token;
         GitLab.authors := default ∅ (GitLabConfig.authors cfg);
         GitLab.project_id := project_id;
         GitLab.target_branch := default "main" (GitLabConfig.target_branch cfg) |}.
Proof.
  unfold constructor.
  destruct (truthy truthy_string (config ≫= GitLabConfig.api_token))
    as [tok |] eqn:Htok.
  - destruct (truthy truthy_number (config ≫= GitLabConfig.project_id))
      as [pid |] eqn:Hpid.
    + apply truthy_string_Some in Htok as [Htok Htok'].
      apply truthy_number_Some in Hpid as [Hpid Hpid'].
      destruct config as [cfg |]; [| discriminate]. simpl in Htok, Hpid.
      rewrite !result_bind.
      assert (Hres : ∀ (c : bool) (m1 : M unit),
        result m1 = Return tt →
        result (if c then m1 else mret tt) = Return tt).
      { intros [] m1 Hm1; [done | done]. }
      rewrite Hres by done.
      assert (Hres2 : result
        match truthy truthy_string (Some cfg ≫= GitLabConfig.target_branch) with
        | Some _ => mret tt
        | None =>
          emit (Warn "Configuration missing branch name; defaulting to main")
        end = Return tt) by (by destruct (truthy _ _)).
      rewrite Hres2. simpl. split.
      * intros [= <-]. by exists cfg, tok, pid.
      * intros (cfg' & tok' & pid' & [= <-] & Ht & _ & Hp & _ & ->).
        congruence.
    + split; [discriminate |].
      intros (cfg & tok' & pid' & -> & Ht & _ & Hp & Hp' & _).
      simpl in Hpid. rewrite Hp in Hpid. simpl in Hpid.
      unfold truthy_number in Hpid.
      destruct (Z.eqb_spec pid' 0); [done | discriminate].
  - split; [discriminate |].
    intros (cfg & tok' & pid' & -> & Ht & Ht' & _).
    simpl in Htok. rewrite Ht in Htok. by destruct tok'.
Qed.

Ltac find_elem := first [by left | right; find_elem].

Ltac no_elem H :=
  repeat (apply elem_of_cons in H as [H | H]; [discriminate H |]);
  apply elem_of_nil in H.

(** X6. The branch of the instance: "main", with the warning, when the
    configuration has no [target_branch]; the configured branch
    otherwise.  The warning that the branch defaults to "main" is also
    printed for an empty branch name, which the instance keeps. *)
Theorem constructor_target_branch
    (config : option GitLabConfig.t) (gitlab : GitLab.t) :
  result (constructor config) = Return gitlab →
  let warning := Warn "Configuration missing branch name; defaulting to main" in
  (config ≫= GitLabConfig.target_branch = None →
   GitLab.target_branch gitlab = "main" ∧ warning ∈ trace (constructor config)) ∧
  (∀ branch,
     config ≫= GitLabConfig.target_branch = Some branch →
     GitLab.target_branch gitlab = branch ∧
     (warning ∈ trace (constructor config) ↔ branch = "")).
Proof.
  unfold constructor.
  destruct (truthy truthy_string (config ≫= GitLabConfig.api_token))
    as [tok |]; [| discriminate].
  destruct (truthy truthy_number (config ≫= GitLabConfig.project_id))
    as [pid |]; [| discriminate].
  destruct (config ≫= GitLabConfig.target_branch) as [[| c branch] |];
    destruct (match config ≫= GitLabConfig.authors with
              | Some o => (length (Object_entries o) <? 1)%nat
              | None => true
              end);
    run_M; intros [= <-]; cbv zeta; cbn [GitLab.target_branch];
    (split;
     [ intros Hnone;
       first [discriminate Hnone | split; [done | find_elem]]
     | intros b Hb;
       first [discriminate Hb | injection Hb as <-; split; [done |]] ]).
  - split; [done | intros _; find_elem].
  - split; [done | intros _; find_elem].
  - split; [| discriminate]. intros Hin. by no_elem Hin.
  - split; [| discriminate]. intros Hin. by no_elem Hin.
Qed.

(** ** The URLs of the requests *)

Lemma string_forall_app (P : Ascii.ascii → bool) (s1 s2 : string) :
  string_forall P (s1 +:+ s2) = string_forall P s1 && string_forall P s2.
Proof.
  induction s1 as [| c s1 IH]; [done |].
  change (P c && string_forall P (s1 +:+ s2) =
          P c && string_forall P s1 && string_forall P s2).
  by rewrite IH, andb_assoc.
Qed.

Lemma form_urlencode_byte_safe (c : Ascii.ascii) :
  string_forall query_safe (form_urlencode_byte c) = true.
Proof. destruct c as [[] [] [] [] [] [] [] []]; reflexivity. Qed.

Lemma form_urlencode_safe (s : string) :
  string_forall query_safe (form_urlencode s) = true.
Proof.
  induction s as [| c s IH]; [done |].
  cbn [form_urlencode]. by rewrite string_forall_app, form_urlencode_byte_safe.
Qed.

Lemma form_urlencode_unreserved (s : string) :
  string_forall unreserved s = true → form_urlencode s = s.
Proof.
  induction s as [| c s IH]; [done |]. cbn [string_forall form_urlencode].
  intros [Hc Hs]%andb_true_iff. rewrite IH by done.
  unfold form_urlencode_byte. unfold unreserved in Hc. by rewrite Hc.
Qed.

Lemma form_urldecode_byte (c : Ascii.ascii) (r : string) :
  form_urldecode (form_urlencode_byte c +:+ r) = String c <$> form_urldecode r.
Proof. destruct c as [[] [] [] [] [] [] [] []]; reflexivity. Qed.

Lemma form_urldecode_encode (s : string) :
  form_urldecode (form_urlencode s) = Some s.
Proof.
  induction s as [| c s IH]; [done |]. cbn [form_urlencode].
  by rewrite form_urldecode_byte, IH.
Qed.

Lemma form_urlencode_inj (s1 s2 : string) :
  form_urlencode s1 = form_urlencode s2 → s1 = s2.
Proof.
  intros Heq. apply (f_equal form_urldecode) in Heq.
  rewrite !form_urldecode_encode in Heq. congruence.
Qed.

Lemma listing_query (branch : string) :
  URLSearchParams_toString
    [("scope", "all"); ("state", "opened"); ("target_branch", branch)] =
  "scope=all&state=opened&target_branch=" +:+ form_urlencode branch.
Proof. reflexivity. Qed.

Lemma listing_url (this : GitLab.t) :
  request_url this "/merge_requests"
    [("scope", "all"); ("state", "opened");
     ("target_branch", GitLab.target_branch this)] =
  baseURL this +:+ "/merge_requests?scope=all&state=opened&target_branch=" +:+
  form_urlencode (GitLab.target_branch this).
Proof.
  rewrite request_url_relative. unfold relative_url. by rewrite listing_query.
Qed.

(** X7. The URL of the listing request is the base URL of the project
    followed by [/merge_requests?scope=all&state=opened&target_branch=]
    and the encoded branch name.  The encoded name holds only letters,
    digits and the characters [* - . _ + %], so that the branch name
    cannot add a parameter to the query or end it; a branch name of
    letters, digits and [* - . _] stands for itself. *)
Theorem listing_url_names_the_branch (this : GitLab.t) :
  fst (listing_request this) =
    baseURL this +:+ "/merge_requests?scope=all&state=opened&target_branch=" +:+
    form_urlencode (GitLab.target_branch this) ∧
  string_forall query_safe (form_urlencode (GitLab.target_branch this)) = true ∧
  (string_forall unreserved (GitLab.target_branch this) = true →
   fst (listing_request this) =
     baseURL this +:+ "/merge_requests?scope=all&state=opened&target_branch=" +:+
     GitLab.target_branch this).
Proof.
  unfold listing_request. cbn [fst]. rewrite listing_url.
  split; [done |]. split; [apply form_urlencode_safe |].
  intros Hplain. by rewrite form_urlencode_unreserved.
Qed.

(** X8. The branch name can be read back from the URL of the listing
    request: the decoder gives back every encoded name, and two
    instances for the same project whose branches differ send their
    listing requests to different URLs. *)
Theorem listing_url_determines_the_branch (this this' : GitLab.t) :
  form_urldecode (form_urlencode (GitLab.target_branch this)) =
    Some (GitLab.target_branch this) ∧
  (GitLab.project_id this = GitLab.project_id this' →
   fst (listing_request this) = fst (listing_request this') →
   GitLab.target_branch this = GitLab.target_branch this').
Proof.
  split; [apply form_urldecode_encode |].
  unfold listing_request. cbn [fst]. rewrite !listing_url. unfold baseURL.
  intros -> Heq. by apply String.app_inj, String.app_inj, form_urlencode_inj in Heq.
Qed.

Lemma length_append (s1 s2 : string) :
  String.length (s1 +:+ s2) = (String.length s1 + String.length s2)%nat.
Proof.
  induction s1 as [| c s1 IH]; [done |].
  change (S (String.length (s1 +:+ s2)) =
          S (String.length s1 + String.length s2)). by rewrite IH.
Qed.

Lemma append_inj_r (s1 s2 t : string) : s1 +:+ t = s2 +:+ t → s1 = s2.
Proof.
  revert s2. induction s1 as [| c1 s1 IH]; intros [| c2 s2] Heq; [done | | |].
  - apply (f_equal String.length) in Heq.
    change (String.length t = S (String.length (s2 +:+ t))) in Heq.
    rewrite length_append in Heq. lia.
  - apply (f_equal String.length) in Heq.
    change (S (String.length (s1 +:+ t)) = String.length t) in Heq.
    rewrite length_append in Heq. lia.
  - change (String c1 (s1 +:+ t) = String c2 (s2 +:+ t)) in Heq.
    injection Heq as -> Heq. f_equal. by apply IH.
Qed.

Lemma approval_url (this : GitLab.t) (mr : MergeRequest.t) :
  request_url this (approvals_uri mr) [] =
  baseURL this +:+ "/merge_requests/" +:+
  number_toString (MergeRequest.iid mr) +:+ "/approvals".
Proof. by rewrite request_url_relative. Qed.

(** X9. The approval request of an item goes to the base URL of the
    project followed by [/merge_requests/IID/approvals], without a
    query; the log names it by that path; and the requests of two items
    whose [iid]s differ go to different URLs. *)
Theorem approval_url_names_the_item (this : GitLab.t) (mr mr' : MergeRequest.t) :
  fst (approval_request this mr) =
    baseURL this +:+ "/merge_requests/" +:+
    number_toString (MergeRequest.iid mr) +:+ "/approvals" ∧
  request_logUrl this (approvals_uri mr) [] =
    "/merge_requests/" +:+ number_toString (MergeRequest.iid mr) +:+
    "/approvals" ∧
  (fst (approval_request this mr) = fst (approval_request this mr') →
   MergeRequest.iid mr = MergeRequest.iid mr').
Proof.
  unfold approval_request. cbn [fst]. rewrite !approval_url.
  split; [done |]. split; [by rewrite request_logUrl_relative |].
  intros Heq. apply String.app_inj, String.app_inj, append_inj_r in Heq.
  unfold number_toString in Heq. by apply (inj pretty) in Heq.
Qed.

(** ** The requests of a run *)

Lemma get_receive_offline {T} `{FromJSON T} logUrl res :
  requests (trace (get_receive (T:=T) logUrl res)) = [].
Proof.
  destruct (get_receive_trace (T:=T) logUrl res) as [-> | [n ->]]; done.
Qed.

Lemma report_requests gitlab items isTTY :
  requests (report gitlab items isTTY) = [].
Proof. unfold report. by destruct isTTY. Qed.

Section RequestFacts.
Context `{FromJSON (list MergeRequest.t), FromJSON MRApprovalStatus.t}.

Lemma send_all_requests this mrs :
  requests (send_all this mrs) = approval_request this <$> mrs.
Proof.
  unfold send_all. induction mrs as [| mr mrs IH]; [done |].
  cbn [flat_map]. rewrite requests_app, IH. done.
Qed.

Lemma complete_requests this net sent st i :
  (rejection st = None → late st = []) →
  (rejection (complete this net sent st i) = None →
   late (complete this net sent st i) = []) ∧
  requests (before (complete this net sent st i)) = requests (before st) ∧
  requests (late (complete this net sent st i)) = requests (late st).
Proof.
  intros Hinv. unfold complete.
  destruct (approval_call this net sent i) as [r |] eqn:Hcall; [| done].
  assert (Hr : requests (trace r) = []).
  { unfold approval_call in Hcall. destruct (sent !! i); [| done].
    simpl in Hcall. injection Hcall as <-. apply get_receive_offline. }
  destruct (items st !! i); [| done].
  destruct (rejection st); cbn [before late rejection].
  - by rewrite requests_app, Hr, app_nil_r.
  - by rewrite requests_app, Hr, app_nil_r, Hinv.
Qed.

Lemma foldl_complete_requests this net sent sched st :
  (rejection st = None → late st = []) →
  requests (before (foldl (complete this net sent) st sched)) =
    requests (before st) ∧
  requests (late (foldl (complete this net sent) st sched)) =
    requests (late st).
Proof.
  revert st. induction sched as [| i sched IH]; intros st Hinv; [done |].
  cbn [foldl].
  destruct (complete_requests this net sent st i Hinv) as (Hinv' & <- & <-).
  by apply IH.
Qed.

Lemma openMergeRequests_requests this net sched :
  requests (printed (openMergeRequests this net sched)) =
    listing_request this ::
    match filtered this net with
    | Some mrs => approval_request this <$> mrs
    | None => []
    end ∧
  requests (printed_late (openMergeRequests this net sched)) = [].
Proof.
  unfold openMergeRequests, filtered, listing_call. cbv zeta.
  set (listing := get _ _ _ _).
  assert (Hlisting : requests (trace listing) = [listing_request this]).
  { subst listing. rewrite trace_get, requests_app, get_receive_offline. done. }
  destruct (result listing) as [all_mrs | e]; cbn [printed printed_late];
    [| by rewrite Hlisting].
  set (mrs := author_filter _ all_mrs).
  destruct (foldl_complete_requests this net mrs sched
              (mkFanout mrs None (send_all this mrs) [])) as [Hb Hl]; [done |].
  cbn [before late] in Hb, Hl. rewrite send_all_requests in Hb.
  unfold Promise_all. cbv zeta.
  destruct (rejection _); [| destruct (all_completed _ _)];
    cbn [printed printed_late]; by rewrite requests_app, Hlisting, Hb, Hl.
Qed.

(** X10. The requests of a run do not depend on the order in which the
    responses arrive, nor on how the run ends: the listing request, then,
    when the listing call returns, one approval request for each item
    that passes the author filter, in order, and none for the others.
    Every request carries the token of the instance. *)
Theorem requests_of_a_run
    (HOME : option string) (rc : outcome (option GitLabConfig.t))
    (gitlab : GitLab.t) (net : Network) (sched : list nat) (isTTY : bool) :
  result (startup HOME rc) = Return gitlab →
  requests (main HOME rc net sched isTTY) =
    listing_request gitlab ::
    match filtered gitlab net with
    | Some mrs => approval_request gitlab <$> mrs
    | None => []
    end ∧
  Forall (λ request, snd request = "Bearer " +:+ GitLab.api_token gitlab)
    (requests (main HOME rc net sched isTTY)).
Proof.
  intros Hstart.
  assert (Hreq : requests (main HOME rc net sched isTTY) =
    listing_request gitlab ::
    match filtered gitlab net with
    | Some mrs => approval_request gitlab <$> mrs
    | None => []
    end).
  { unfold main. cbv zeta. rewrite Hstart.
    destruct (startup_silent HOME rc) as [_ Hoff].
    destruct (openMergeRequests_requests gitlab net sched) as [Hp Hl].
    rewrite !requests_app, (offline_requests _ Hoff), Hp.
    assert (Herr : ∀ text, requests [ConsoleError text] = []) by done.
    assert (Hnil : requests [] = []) by done.
    destruct (settled _) as [[mrs | e] |];
      rewrite ?requests_app, ?Hl, ?report_requests, ?Herr, ?Hnil, ?app_nil_r;
      done. }
  split; [exact Hreq |]. rewrite Hreq. constructor; [done |].
  destruct (filtered gitlab net) as [mrs |]; [| constructor].
  apply Forall_fmap, Forall_forall. done.
Qed.

End RequestFacts.

(** ** How a call ends *)

Section GetErrors.
Context {T : Type} `{FromJSON T}.
Context (this : GitLab.t) (res : string → Response).
Context (uri : string) (params : list (string * string)).

(** X11. A request that fails on the network rejects with the error of
    the network, unchanged; a response whose status is rejected is
    rejected for its status whether or not its body parses.  In both
    cases the call prints the line that announces the request and
    nothing more: the size of the body is not logged. *)
Theorem get_fails_before_reading_the_body :
  (∀ e,
     res (request_url this uri params) = NetworkError e →
     get (T:=T) this res uri params =
     mkM [Log (request_logUrl this uri params +:+ " - requesting...");
          Request (request_url this uri params)
            ("Bearer " +:+ GitLab.api_token this)]
         (Throw e)) ∧
  (∀ s data,
     res (request_url this uri params) = Reply (Some s) data →
     s ≠ 0 → s < 200 ∨ 299 < s →
     get (T:=T) this res uri params =
     mkM [Log (request_logUrl this uri params +:+ " - requesting...");
          Request (request_url this uri params)
            ("Bearer " +:+ GitLab.api_token this)]
         (Throw (mkError ("statusCode=" +:+ number_toString s)))).
Proof.
  split.
  - intros e Hres. unfold get. run_M. by rewrite Hres.
  - intros s data Hres Hs Hout. unfold get. run_M.
    by rewrite Hres, get_receive_status_rejected.
Qed.


End GetErrors.

(** ** How a run ends *)

Section RunEnds.
Context `{FromJSON (list MergeRequest.t), FromJSON MRApprovalStatus.t}.

Lemma first_rejection_None_iff this net mrs sched :
  first_rejection this net mrs sched = None ↔
  ∀ i e, i ∈ sched → ¬ approval_fails this net mrs i e.
Proof.
  split.
  - intros Hnone i e Hi. by eapply first_rejection_None.
  - intros Hall. destruct (first_rejection this net mrs sched) as [e |] eqn:E;
      [| done].
    apply first_rejection_Some in E as (i & Hi & Hfail).
    by destruct (Hall i e Hi).
Qed.

Lemma first_rejection_app this net mrs pre post :
  first_rejection this net mrs (pre ++ post) =
  match first_rejection this net mrs pre with
  | Some e => Some e
  | None => first_rejection this net mrs post
  end.
Proof.
  induction pre as [| j pre IH]; [done |]. cbn [app first_rejection].
  destruct (approval_call this net mrs j) as [r |]; [| done].
  by destruct (result r).
Qed.

Lemma all_completed_Permutation n sched sched' :
  sched ≡ₚ sched' → all_completed n sched = all_completed n sched'.
Proof.
  intros Hperm. apply eq_true_iff_eq. rewrite !all_completed_spec.
  by setoid_rewrite Hperm.
Qed.

Lemma main_pending HOME rc net sched isTTY gitlab :
  result (startup HOME rc) = Return gitlab →
  settled (openMergeRequests gitlab net sched) = None →
  stdout (main HOME rc net sched isTTY) = [] ∧
  errors (main HOME rc net sched isTTY) = [].
Proof.
  intros Hstart Hrun. unfold main. cbv zeta. rewrite Hstart, Hrun.
  destruct (startup_silent HOME rc) as [Hs _].
  destruct (openMergeRequests_silent gitlab net sched) as [Hp _].
  rewrite !stdout_app, !errors_app.
  rewrite (silent_stdout _ Hs), (silent_stdout _ Hp).
  rewrite (silent_errors _ Hs), (silent_errors _ Hp). done.
Qed.

(** X13. The run waits for every response: as long as no call has
    failed and the response of some item has not arrived,
    [openMergeRequests] has not settled, and the run has written no
    report and no error. *)
Theorem run_waits_for_every_response
    (HOME : option string) (rc : outcome (option GitLabConfig.t))
    (gitlab : GitLab.t) (net : Network) (sched : list nat) (isTTY : bool)
    (mrs : list MergeRequest.t) (i : nat) :
  result (startup HOME rc) = Return gitlab →
  filtered gitlab net = Some mrs →
  (∀ j e, j ∈ sched → ¬ approval_fails gitlab net mrs j e) →
  (i < length mrs)%nat → i ∉ sched →
  settled (openMergeRequests gitlab net sched) = None ∧
  stdout (main HOME rc net sched isTTY) = [] ∧
  errors (main HOME rc net sched isTTY) = [].
Proof.
  intros Hstart Hmrs Hok Hi Hnot.
  assert (Hset : settled (openMergeRequests gitlab net sched) = None).
  { apply filtered_Some in Hmrs as (all_mrs & Hlist & ->).
    rewrite openMergeRequests_settled, Hlist, Promise_all_settled.
    apply first_rejection_None_iff in Hok. rewrite Hok.
    destruct (all_completed _ sched) eqn:Hall; [| done].
    rewrite all_completed_spec in Hall. by destruct (Hnot (Hall i Hi)). }
  split; [done |]. by eapply main_pending.
Qed.

(** X14. Whether a run returns, rejects or still waits depends on which
    responses have arrived and not on their order, and so does the
    array that it returns; only which error a run rejects with can
    depend on the order. *)
Theorem outcome_does_not_depend_on_arrival_order
    (this : GitLab.t) (net : Network) (sched sched' : list nat) :
  sched ≡ₚ sched' →
  let run := openMergeRequests this net sched in
  let run' := openMergeRequests this net sched' in
  (∀ out, settled run = Some (Return out) ↔ settled run' = Some (Return out)) ∧
  (settled run = None ↔ settled run' = None) ∧
  ((∃ e, settled run = Some (Throw e)) ↔ (∃ e, settled run' = Some (Throw e))).
Proof.
  intros Hperm run run'. subst run run'.
  rewrite !openMergeRequests_settled.
  destruct (result (listing_call this net)) as [all_mrs | e]; [| done].
  rewrite !Promise_all_settled.
  set (mrs := author_filter _ all_mrs).
  rewrite (all_completed_Permutation _ _ _ Hperm).
  assert (Hiff : first_rejection this net mrs sched = None ↔
                 first_rejection this net mrs sched' = None).
  { rewrite !first_rejection_None_iff. by setoid_rewrite Hperm. }
  destruct (first_rejection this net mrs sched) as [e |],
           (first_rejection this net mrs sched') as [e' |].
  - split; [done |]. split; [done |]. split; eauto.
  - destruct Hiff as [_ Hiff]. by specialize (Hiff eq_refl).
  - destruct Hiff as [Hiff _]. by specialize (Hiff eq_refl).
  - done.
Qed.

(** X15. A run rejects with the error of the first failure to arrive:
    when the responses that arrive before that of item [i] are all
    successes and the call of item [i] fails, its error is the one that
    the run reports, whatever arrives later. *)
Theorem first_failure_to_arrive_is_reported
    (HOME : option string) (rc : outcome (option GitLabConfig.t))
    (gitlab : GitLab.t) (net : Network) (isTTY : bool)
    (mrs : list MergeRequest.t) (pre post : list nat) (i : nat) (e : Error) :
  result (startup HOME rc) = Return gitlab →
  filtered gitlab net = Some mrs →
  (∀ j e', j ∈ pre → ¬ approval_fails gitlab net mrs j e') →
  approval_fails gitlab net mrs i e →
  settled (openMergeRequests gitlab net (pre ++ i :: post)) = Some (Throw e) ∧
  errors (main HOME rc net (pre ++ i :: post) isTTY) = [message e].
Proof.
  intros Hstart Hmrs Hpre (r & Hcall & Hres).
  assert (Hset :
    settled (openMergeRequests gitlab net (pre ++ i :: post)) = Some (Throw e)).
  { apply filtered_Some in Hmrs as (all_mrs & Hlist & ->).
    rewrite openMergeRequests_settled, Hlist, Promise_all_settled.
    rewrite first_rejection_app.
    apply first_rejection_None_iff in Hpre. rewrite Hpre.
    cbn [first_rejection]. by rewrite Hcall, Hres. }
  split; [done |]. by eapply main_rejected.
Qed.

End RunEnds.

(** ** Blockers and enrichment *)

Lemma findBlockers_nil_iff (mr : MergeRequest.t) :
  findBlockers mr = [] ↔
  MergeRequest.blocking_discussions_resolved mr = true ∧
  MergeRequest.has_conflicts mr = false ∧
  ¬ unmergeable (MergeRequest.merge_status mr) ∧
  MergeRequest.approvals_needed mr ≤ 0.
Proof.
  destruct mr as [n a bl tr d hc i l ms sb st t w wip].
  unfold findBlockers, push; cbn -[includes number_toString Z.gtb].
  rewrite <- includes_cannot_be_merged.
  destruct (Z.gtb_spec n 0), (includes _ _), tr, hc; simpl;
    split; try done; try (intros (? & ? & ? & ?); done || lia);
    intros _; repeat split; try done; lia.
Qed.

(** X16. Once enriched, an item is grouped as "ready" exactly when its
    discussions are resolved, it has no conflicts, its merge status is
    neither [cannot_be_merged] nor [cannot_be_merged_recheck], and its
    approval status leaves no approval to give; it is grouped as
    "blocked" otherwise. *)
Theorem enriched_item_is_ready_iff
    (a : MRApprovalStatus.t) (mr : MergeRequest.t) :
  (blocked_or_ready (enrich a mr) = "ready" ↔
   MergeRequest.blocking_discussions_resolved mr = true ∧
   MergeRequest.has_conflicts mr = false ∧
   ¬ unmergeable (MergeRequest.merge_status mr) ∧
   MRApprovalStatus.approvals_left a ≤ 0) ∧
  (blocked_or_ready (enrich a mr) = "blocked" ↔
   blocked_or_ready (enrich a mr) ≠ "ready").
Proof.
  split.
  - rewrite blocked_or_ready_ready.
    destruct (enrich_fields a mr) as (Hn & Hb & _). rewrite Hb.
    rewrite findBlockers_nil_iff. by destruct mr.
  - unfold blocked_or_ready. by destruct (_ <? _)%nat.
Qed.

(** X17. Enrichment overwrites: what it leaves in an item does not depend
    on what [approvals_needed] and [blockers] held before, so that
    enriching an item again, from another approval status, gives what
    that status alone gives. *)
Theorem enrichment_overwrites
    (a a' : MRApprovalStatus.t) (mr : MergeRequest.t)
    (n : Z) (bs : list string) :
  enrich a (MergeRequest.set_blockers bs
              (MergeRequest.set_approvals_needed n mr)) = enrich a mr ∧
  enrich a' (enrich a mr) = enrich a' mr.
Proof. by destruct mr. Qed.

Lemma requires_approval_not_constant (n : string) (s : string) :
  s = "unresolved threads" ∨ s = "has conflicts" ∨ s = "cannot be merged" →
  "requires approval (" +:+ n +:+ ")" ≠ s.
Proof. intros [-> | [-> | ->]]; discriminate. Qed.

(** X18. The list of blockers has at most four entries and no entry
    twice, and each entry is one of the three fixed texts or the text
    that counts the approvals left. *)
Theorem findBlockers_entries (mr : MergeRequest.t) :
  (length (findBlockers mr) ≤ 4)%nat ∧
  NoDup (findBlockers mr) ∧
  (∀ blocker, blocker ∈ findBlockers mr →
     blocker = "unresolved threads" ∨ blocker = "has conflicts" ∨
     blocker = "cannot be merged" ∨
     blocker = "requires approval (" +:+
               number_toString (MergeRequest.approvals_needed mr) +:+ ")").
Proof.
  destruct mr as [n a bl tr d hc i l ms sb st t w wip].
  unfold findBlockers, push; cbn -[includes number_toString Z.gtb].
  pose proof (requires_approval_not_constant (number_toString n)) as Hne.
  destruct (n >? 0), (includes _ _), tr, hc; cbn [negb app length];
    (split; [lia |]); (split;
     [ repeat (apply NoDup_cons; split;
               [rewrite ?not_elem_of_cons; repeat split;
                try apply not_elem_of_nil; try discriminate;
                try (intros Heq; symmetry in Heq; revert Heq; apply Hne; tauto)
               |]); apply NoDup_nil_2
     | intros blocker Hin;
       repeat (apply elem_of_cons in Hin as [-> | Hin]; [tauto |]);
       by apply elem_of_nil in Hin ]).
Qed.

(** ** The author filter, again *)

(** X19. Filtering by authors twice gives what filtering once gives;
    the filter of two lists one after the other is the two filters one
    after the other; and a table in which no author of the list occurs,
    if it is not empty, leaves no item. *)
Theorem author_filter_composes
    (author_ids : list Z) (items items' : list MergeRequest.t) :
  author_filter author_ids (author_filter author_ids items) =
    author_filter author_ids items ∧
  author_filter author_ids (items ++ items') =
    author_filter author_ids items ++ author_filter author_ids items' ∧
  (author_ids ≠ [] →
   (∀ mr, mr ∈ items → author_id mr ∉ author_ids) →
   author_filter author_ids items = []).
Proof.
  destruct author_ids as [| id ids]; [done |].
  rewrite !author_filter_cons. split; [| split].
  - rewrite list_filter_filter. apply filter_iff. tauto.
  - apply filter_app.
  - intros _ Hnone.
    destruct (filter (λ mr, author_id mr ∈ id :: ids) items) as [| mr l] eqn:E;
      [done |].
    assert (Hmr : mr ∈ filter (λ mr, author_id mr ∈ id :: ids) items)
      by (rewrite E; left).
    apply list_elem_of_filter in Hmr as [Hin Hmr]. by destruct (Hnone mr Hmr).
Qed.

(** ** The logger *)

Lemma length_spaces (n : nat) : String.length (spaces n) = n.
Proof.
  induction n as [| n IH]; [done |].
  change (S (String.length (spaces n)) = S n). by rewrite IH.
Qed.

Lemma length_padStart (n : nat) (s : string) :
  String.length (padStart n s) = (n `max` String.length s)%nat.
Proof. unfold padStart. rewrite length_append, length_spaces. lia. Qed.

Lemma length_pretty_N_go (k : nat) (x : N) (s : string) :
  (x < 10 ^ N.of_nat k)%N →
  (String.length s ≤ String.length (pretty_N_go x s) ≤ String.length s + k)%nat.
Proof.
  revert x s. induction k as [| k IH]; intros x s Hx.
  - assert (x = 0%N) as -> by (simpl in Hx; lia).
    rewrite pretty_N_go_0. lia.
  - destruct (decide (x = 0%N)) as [-> | Hne].
    { rewrite pretty_N_go_0. lia. }
    rewrite pretty_N_go_step by lia.
    specialize (IH (x `div` 10)%N (String (pretty_N_char (x `mod` 10)) s)).
    cbn [String.length] in IH.
    assert (Hdiv : (x `div` 10 < 10 ^ N.of_nat k)%N).
    { apply N.Div0.div_lt_upper_bound.
      rewrite Nat2N.inj_succ, N.pow_succ_r' in Hx. lia. }
    specialize (IH Hdiv). lia.
Qed.

Lemma length_number_toString (delta : Z) :
  0 ≤ delta < 100000 →
  (1 ≤ String.length (number_toString delta) ≤ 5)%nat.
Proof.
  intros Hd. unfold number_toString, pretty, pretty_Z.
  destruct delta as [| p | p]; [simpl; lia | | lia].
  change (pretty p) with (pretty_N (N.pos p)). unfold pretty_N.
  rewrite decide_False by done. rewrite pretty_N_go_step by lia.
  pose proof (length_pretty_N_go 4 (N.pos p `div` 10)
                (String (pretty_N_char (N.pos p `mod` 10)) "")) as Hlen.
  cbn [String.length] in Hlen.
  assert (Hdiv : (N.pos p `div` 10 < 10 ^ N.of_nat 4)%N).
  { apply N.Div0.div_lt_upper_bound. simpl. lia. }
  specialize (Hlen Hdiv). lia.
Qed.

(** X20. The prefix that [log] puts before a message is the elapsed time
    between brackets, moved to the right by spaces; it is never shorter
    than nine characters, and it has exactly nine as long as less than
    100000 ms have elapsed, so that the messages of a run start in the
    same column. *)
Theorem log_prefix_is_nine_wide (start now : Z) :
  (9 ≤ String.length (log_prefix start now))%nat ∧
  String.length (log_prefix start now) =
    (4 + 5 `max` String.length (number_toString (now - start)))%nat ∧
  (0 ≤ now - start < 100000 →
   String.length (log_prefix start now) = 9%nat ∧
   ∀ text,
     slice 10 (log_line start now text) = text).
Proof.
  assert (Hlen : String.length (log_prefix start now) =
    (4 + 5 `max` String.length (number_toString (now - start)))%nat).
  { unfold log_prefix. cbv zeta.
    change (S (String.length
                 (padStart 5 (number_toString (now - start)) +:+ "ms]")) =
            (4 + 5 `max` String.length (number_toString (now - start)))%nat).
    rewrite length_append, length_padStart. simpl. lia. }
  split; [lia |]. split; [done |]. intros Hd.
  apply length_number_toString in Hd.
  assert (H9 : String.length (log_prefix start now) = 9%nat) by lia.
  split; [done |]. intros text. unfold log_line.
  rewrite <- append_assoc.
  replace 10%nat with (String.length (log_prefix start now +:+ " "))
    by (rewrite length_append, H9; done).
  apply slice_append.
Qed.

(** ** Whole runs *)

Section WholeRuns.
Context `{FromJSON (list MergeRequest.t), FromJSON MRApprovalStatus.t}.

(** X21. A run that fails before its first request, because the
    configuration file cannot be read or parsed or because the
    constructor throws, prints the message of that error and sends no
    request and writes no report. *)
Theorem failed_startup_ends_the_run
    (HOME : option string) (rc : outcome (option GitLabConfig.t))
    (net : Network) (sched : list nat) (isTTY : bool) (e : Error) :
  (rc = Throw e ∨ ∃ config, rc = Return config ∧ constructor config = throw e) →
  requests (main HOME rc net sched isTTY) = [] ∧
  stdout (main HOME rc net sched isTTY) = [] ∧
  errors (main HOME rc net sched isTTY) = [message e].
Proof.
  intros [-> | (config & -> & Hc)]; [done |].
  unfold main, startup, mbind, M_bind, emit.
  cbn -[constructor]. rewrite Hc. done.
Qed.

Lemma main_returned HOME rc net sched isTTY gitlab out :
  result (startup HOME rc) = Return gitlab →
  settled (openMergeRequests gitlab net sched) = Some (Return out) →
  stdout (main HOME rc net sched isTTY) = [report_text gitlab out] ∧
  errors (main HOME rc net sched isTTY) = [].
Proof.
  intros Hstart Hrun. unfold main. cbv zeta. rewrite Hstart, Hrun.
  destruct (startup_silent HOME rc) as [Hs _].
  destruct (openMergeRequests_silent gitlab net sched) as [Hp _].
  rewrite !stdout_app, !errors_app.
  rewrite (silent_stdout _ Hs), (silent_stdout _ Hp).
  rewrite (silent_errors _ Hs), (silent_errors _ Hp).
  pose proof (report_output gitlab out) as Hout. cbv zeta in Hout.
  unfold report. cbv zeta. rewrite Hout. by destruct isTTY.
Qed.

(** X22. A run in which the listing call and every approval call succeed
    and every response arrives prints no error and writes one text: the
    report of the filtered items, each enriched from its own response,
    whatever the order of the responses. *)
Theorem successful_run_writes_the_report
    (HOME : option string) (rc : outcome (option GitLabConfig.t))
    (gitlab : GitLab.t) (net : Network) (sched : list nat) (isTTY : bool)
    (mrs : list MergeRequest.t) :
  result (startup HOME rc) = Return gitlab →
  filtered gitlab net = Some mrs →
  (∀ i mr, mrs !! i = Some mr → ∃ a, approval_returns gitlab net mrs i a) →
  (∀ i, (i < length mrs)%nat → i ∈ sched) →
  stdout (main HOME rc net sched isTTY) =
    [report_text gitlab (enrich_all gitlab net mrs)] ∧
  errors (main HOME rc net sched isTTY) = [].
Proof.
  intros Hstart Hmrs Hall Hsched. apply main_returned; [done |].
  apply filtered_Some in Hmrs as (all_mrs & Hlist & ->).
  rewrite openMergeRequests_settled, Hlist, Promise_all_settled.
  rewrite first_rejection_all_return by done.
  apply all_completed_spec in Hsched. by rewrite Hsched.
Qed.

End WholeRuns.

(** * Further cases of the sample *)


(** The configured branch is kept; an empty one too, with the warning. *)
Lemma constructor_target_branch_witness :
  (result (constructor (Some Sample.config)) = Return Sample.gitlab ∧
   GitLab.target_branch Sample.gitlab = "master") ∧
  (result (constructor (Some Cases.config_with_empty_branch)) =
     Return Cases.gitlab_with_empty_branch ∧
   Warn "Configuration missing branch name; defaulting to main"
     ∈ trace (constructor (Some Cases.config_with_empty_branch))).
Proof.
  assert (H1 : result (constructor (Some Sample.config)) = Return Sample.gitlab)
    by (vm_compute; reflexivity).
  assert (H2 : result (constructor (Some Cases.config_with_empty_branch)) =
               Return Cases.gitlab_with_empty_branch)
    by (vm_compute; reflexivity).
  split; (split; [assumption |]).
  - destruct (constructor_target_branch _ _ H1) as [_ Hsome].
    apply (Hsome "master" eq_refl).
  - destruct (constructor_target_branch _ _ H2) as [_ Hsome].
    destruct (Hsome "" eq_refl) as [_ Hwarn]. apply Hwarn. reflexivity.
Defined.

(** The branch of the sample stands for itself in the URL. *)
Lemma listing_url_names_the_branch_witness :
  string_forall unreserved (GitLab.target_branch Sample.gitlab) = true ∧
  fst (listing_request Sample.gitlab) =
    baseURL Sample.gitlab +:+
    "/merge_requests?scope=all&state=opened&target_branch=" +:+ "master".
Proof.
  split; [reflexivity |].
  destruct (listing_url_names_the_branch Sample.gitlab) as (_ & _ & Hplain).
  apply Hplain. reflexivity.
Defined.

(** Two instances whose listing requests go to the same URL. *)
Lemma listing_url_determines_the_branch_witness :
  fst (listing_request Cases.gitlab_release) =
    fst (listing_request (with_api_token "OTHER" Cases.gitlab_release)) ∧
  GitLab.target_branch Cases.gitlab_release =
    GitLab.target_branch (with_api_token "OTHER" Cases.gitlab_release).
Proof.
  split; [reflexivity |].
  destruct (listing_url_determines_the_branch Cases.gitlab_release
              (with_api_token "OTHER" Cases.gitlab_release)) as [_ Hinj].
  apply Hinj; reflexivity.
Defined.

(** Two items with the URL of one approval request. *)
Lemma approval_url_names_the_item_witness :
  let mr := MergeRequest.set_blockers ["stale"] Sample.mr27 in
  fst (approval_request Sample.gitlab Sample.mr27) =
    fst (approval_request Sample.gitlab mr) ∧
  MergeRequest.iid Sample.mr27 = MergeRequest.iid mr.
Proof.
  intros mr. split; [reflexivity |].
  destruct (approval_url_names_the_item Sample.gitlab Sample.mr27 mr)
    as (_ & _ & Hinj).
  apply Hinj. reflexivity.
Defined.

(** The three requests of the sample, in a run that fails. *)
Lemma requests_of_a_run_witness :
  let rc := Return (Some Sample.config) in
  result (startup (Some "/home/edgar") rc) = Return Sample.gitlab ∧
  requests
    (main (H:=Sample.parse_listing) (H0:=Sample.parse_approvals)
       (Some "/home/edgar") rc Sample.net_500 [1; 0]%nat false) =
  listing_request Sample.gitlab ::
  match filtered (H:=Sample.parse_listing) Sample.gitlab Sample.net_500 with
  | Some mrs => approval_request Sample.gitlab <$> mrs
  | None => []
  end.
Proof.
  intros rc.
  assert (Hstart :
    result (startup (Some "/home/edgar") rc) = Return Sample.gitlab)
    by (vm_compute; reflexivity).
  split; [exact Hstart |].
  apply (requests_of_a_run (H:=Sample.parse_listing)
           (H0:=Sample.parse_approvals) (Some "/home/edgar") rc Sample.gitlab
           Sample.net_500 [1; 0]%nat false Hstart).
Defined.

(** A server that cannot be reached, and one that answers 503 with a
    body that does not parse. *)
Lemma get_fails_before_reading_the_body_witness :
  result (get (H:=Sample.parse_listing) Sample.gitlab Cases.refused
            "/merge_requests" []) =
    Throw (mkError "connect ECONNREFUSED") ∧
  result (get (H:=Sample.parse_listing) Sample.gitlab
            (Sample.always (Some 503) "<html>") "/merge_requests" []) =
    Throw (mkError "statusCode=503").
Proof.
  destruct (get_fails_before_reading_the_body (H:=Sample.parse_listing)
              Sample.gitlab Cases.refused "/merge_requests" [])
    as [Hnet _].
  destruct (get_fails_before_reading_the_body (H:=Sample.parse_listing)
              Sample.gitlab (Sample.always (Some 503) "<html>")
              "/merge_requests" []) as [_ Hstatus].
  split.
  - rewrite (Hnet (mkError "connect ECONNREFUSED") eq_refl). reflexivity.
  - rewrite (Hstatus 503 "<html>" eq_refl); [reflexivity | lia | lia].
Defined.


(** The response of the second item has not arrived. *)
Lemma run_waits_for_every_response_witness :
  let rc := Return (Some Sample.config) in
  let t :=
    main (H:=Sample.parse_listing) (H0:=Sample.parse_approvals)
      (Some "/home/edgar") rc Sample.net [0]%nat false in
  (1 < length [Sample.mr27; Sample.mr28])%nat ∧ ¬ 1%nat ∈ [0%nat] ∧
  settled (openMergeRequests (H:=Sample.parse_listing)
             (H0:=Sample.parse_approvals) Sample.gitlab Sample.net [0]%nat) =
    None ∧
  stdout t = [] ∧ errors t = [].
Proof.
  intros rc t.
  assert (Hstart :
    result (startup (Some "/home/edgar") rc) = Return Sample.gitlab)
    by (vm_compute; reflexivity).
  assert (Hmrs :
    filtered (H:=Sample.parse_listing) Sample.gitlab Sample.net =
    Some [Sample.mr27; Sample.mr28]) by (vm_compute; reflexivity).
  assert (Hok : ∀ j e, j ∈ [0%nat] →
    ¬ approval_fails (H0:=Sample.parse_approvals) Sample.gitlab Sample.net
        [Sample.mr27; Sample.mr28] j e).
  { intros j e Hj (r & Hcall & Hres).
    apply list_elem_of_singleton in Hj. subst j.
    vm_compute in Hcall. injection Hcall as <-. discriminate Hres. }
  assert (Hi : (1 < length [Sample.mr27; Sample.mr28])%nat) by (simpl; lia).
  assert (Hnot : 1%nat ∉ [0%nat]).
  { intros Hin. apply list_elem_of_singleton in Hin. discriminate Hin. }
  split; [exact Hi |]. split; [exact Hnot |].
  apply (run_waits_for_every_response (H:=Sample.parse_listing)
           (H0:=Sample.parse_approvals) (Some "/home/edgar") rc Sample.gitlab
           Sample.net [0]%nat false [Sample.mr27; Sample.mr28] 1%nat
           Hstart Hmrs Hok Hi Hnot).
Defined.

(** The two orders of the two responses of the sample. *)
Lemma outcome_does_not_depend_on_arrival_order_witness :
  [0; 1]%nat ≡ₚ [1; 0]%nat ∧
  (settled (openMergeRequests (H:=Sample.parse_listing)
              (H0:=Sample.parse_approvals) Sample.gitlab Sample.net
              [0; 1]%nat) = None ↔
   settled (openMergeRequests (H:=Sample.parse_listing)
              (H0:=Sample.parse_approvals) Sample.gitlab Sample.net
              [1; 0]%nat) = None).
Proof.
  assert (Hperm : [0; 1]%nat ≡ₚ [1; 0]%nat) by apply perm_swap.
  split; [exact Hperm |].
  apply (outcome_does_not_depend_on_arrival_order (H:=Sample.parse_listing)
           (H0:=Sample.parse_approvals) Sample.gitlab Sample.net
           [0; 1]%nat [1; 0]%nat Hperm).
Defined.

(** The first response succeeds and the second is a 500. *)
Lemma first_failure_to_arrive_is_reported_witness :
  let rc := Return (Some Sample.config) in
  approval_fails (H0:=Sample.parse_approvals) Sample.gitlab Sample.net_500
    [Sample.mr27; Sample.mr28] 1 (mkError "statusCode=500") ∧
  errors
    (main (H:=Sample.parse_listing) (H0:=Sample.parse_approvals)
       (Some "/home/edgar") rc Sample.net_500 ([0] ++ [1])%nat true) =
  ["statusCode=500"].
Proof.
  intros rc.
  assert (Hstart :
    result (startup (Some "/home/edgar") rc) = Return Sample.gitlab)
    by (vm_compute; reflexivity).
  assert (Hmrs :
    filtered (H:=Sample.parse_listing) Sample.gitlab Sample.net_500 =
    Some [Sample.mr27; Sample.mr28]) by (vm_compute; reflexivity).
  assert (Hpre : ∀ j e', j ∈ [0%nat] →
    ¬ approval_fails (H0:=Sample.parse_approvals) Sample.gitlab Sample.net_500
        [Sample.mr27; Sample.mr28] j e').
  { intros j e' Hj (r & Hcall & Hres).
    apply list_elem_of_singleton in Hj. subst j.
    vm_compute in Hcall. injection Hcall as <-. discriminate Hres. }
  assert (Hfail :
    approval_fails (H0:=Sample.parse_approvals) Sample.gitlab Sample.net_500
      [Sample.mr27; Sample.mr28] 1 (mkError "statusCode=500")).
  { eexists. split; vm_compute; reflexivity. }
  split; [exact Hfail |].
  apply (first_failure_to_arrive_is_reported (H:=Sample.parse_listing)
           (H0:=Sample.parse_approvals) (Some "/home/edgar") rc Sample.gitlab
           Sample.net_500 true [Sample.mr27; Sample.mr28] [0%nat] [] 1%nat
           (mkError "statusCode=500") Hstart Hmrs Hpre Hfail).
Defined.

(** One of the four blockers of [mr29]. *)
Lemma findBlockers_entries_witness :
  "has conflicts" ∈ findBlockers Sample.mr29 ∧
  ("has conflicts" = "unresolved threads" ∨ "has conflicts" = "has conflicts" ∨
   "has conflicts" = "cannot be merged" ∨
   "has conflicts" =
     "requires approval (" +:+
     number_toString (MergeRequest.approvals_needed Sample.mr29) +:+ ")").
Proof.
  assert (Hin : "has conflicts" ∈ findBlockers Sample.mr29) by (right; left).
  split; [exact Hin |].
  destruct (findBlockers_entries Sample.mr29) as (_ & _ & Hentries).
  apply (Hentries "has conflicts" Hin).
Defined.

(** A table without the one author of the list. *)
Lemma author_filter_composes_witness :
  [1010; 1011] ≠ [] ∧
  author_filter [1010; 1011] [Sample.mr30] = [].
Proof.
  assert (Hne : [1010; 1011] ≠ ([] : list Z)) by discriminate.
  split; [exact Hne |].
  destruct (author_filter_composes [1010; 1011] [Sample.mr30] [])
    as (_ & _ & Hnone).
  apply (Hnone Hne). intros mr Hmr Hin.
  apply list_elem_of_singleton in Hmr. subst mr.
  apply elem_of_cons in Hin as [Hin | Hin]; [discriminate Hin |].
  apply list_elem_of_singleton in Hin. discriminate Hin.
Defined.

(** A message logged 529 ms after the start. *)
Lemma log_prefix_is_nine_wide_witness :
  0 ≤ 1529 - 1000 < 100000 ∧
  log_prefix 1000 1529 = "[  529ms]" ∧
  slice 10 (log_line 1000 1529 "/merge_requests - requesting...") =
    "/merge_requests - requesting...".
Proof.
  assert (Hd : 0 ≤ 1529 - 1000 < 100000) by lia.
  split; [exact Hd |]. split; [reflexivity |].
  destruct (log_prefix_is_nine_wide 1000 1529) as (_ & _ & Hnine).
  apply (Hnine Hd).
Defined.

(** A configuration file that is not there, and one without a token. *)
Lemma failed_startup_ends_the_run_witness :
  requests
    (main (H:=Sample.parse_listing) (H0:=Sample.parse_approvals)
       None (Throw (mkError "ENOENT: no such file or directory"))
       Sample.net [0; 1]%nat true) = [] ∧
  errors
    (main (H:=Sample.parse_listing) (H0:=Sample.parse_approvals)
       (Some "/home/edgar") (Return (Some Sample.config_without_api_token))
       Sample.net [0; 1]%nat true) = [message missing_api_token].
Proof.
  split.
  - apply (failed_startup_ends_the_run (H:=Sample.parse_listing)
             (H0:=Sample.parse_approvals) None _ Sample.net [0; 1]%nat true
             (mkError "ENOENT: no such file or directory")).
    left. reflexivity.
  - apply (failed_startup_ends_the_run (H:=Sample.parse_listing)
             (H0:=Sample.parse_approvals) (Some "/home/edgar") _ Sample.net
             [0; 1]%nat true missing_api_token).
    right. eexists. split; reflexivity.
Defined.

(** The run of the sample, the second response first. *)
Lemma successful_run_writes_the_report_witness :
  let rc := Return (Some Sample.config) in
  let mrs := [Sample.mr27; Sample.mr28] in
  filtered (H:=Sample.parse_listing) Sample.gitlab Sample.net = Some mrs ∧
  stdout
    (main (H:=Sample.parse_listing) (H0:=Sample.parse_approvals)
       (Some "/home/edgar") rc Sample.net [1; 0]%nat false) =
  [report_text Sample.gitlab
     (enrich_all (H0:=Sample.parse_approvals) Sample.gitlab Sample.net mrs)].
Proof.
  intros rc mrs.
  assert (Hstart :
    result (startup (Some "/home/edgar") rc) = Return Sample.gitlab)
    by (vm_compute; reflexivity).
  assert (Hmrs :
    filtered (H:=Sample.parse_listing) Sample.gitlab Sample.net = Some mrs)
    by (vm_compute; reflexivity).
  assert (Hall : ∀ i mr, mrs !! i = Some mr →
    ∃ a, approval_returns (H0:=Sample.parse_approvals)
           Sample.gitlab Sample.net mrs i a).
  { intros [| [| i]] mr Hmr; [| | discriminate Hmr];
      eexists; eexists; split; vm_compute; reflexivity. }
  assert (Hsched : ∀ i, (i < length mrs)%nat → i ∈ [1; 0]%nat).
  { intros [| [| i]] Hi; [right; left | left | simpl in Hi; lia]. }
  split; [exact Hmrs |].
  apply (successful_run_writes_the_report (H:=Sample.parse_listing)
           (H0:=Sample.parse_approvals) (Some "/home/edgar") rc Sample.gitlab
           Sample.net [1; 0]%nat false mrs Hstart Hmrs Hall Hsched).
Defined.
